(** * storybook: the story-generation pipeline of [backend/story_service.py]

    A shallow embedding of the pipeline (photo analysis, narrative
    generation, illustration, the offline fallback stories and the
    transport form of a story) together with the properties the
    specification states about it.

    Conventions of the embedding.
    - A Python [str] is a [string]: the sequence of the bytes of its UTF-8
      encoding.  Substring tests agree with Python's on such sequences, and
      [str.lower] only matters here for the ASCII letters of "quota".
    - A Python [bytes] is a [list byte]; [None] is the [None] of [option].
    - An exception is represented by its message, [str(e)], which is all the
      code ever inspects.
    - The integers of the code (attempt indices, counts, delays in
      seconds) are never negative and are modelled in [nat].
    - A loop [for attempt in range(max_retries)] is a recursion over the
      list of attempt indices [seq 0 max_retries]; a [while] loop is given
      a fuel that is shown to suffice.
    - The effects are made explicit: a computation takes the number of
      calls made to the generation backend so far and returns, with its
      result, the new number of calls and the sleeps it made, in order.
    - Logging calls are dropped: they have no effect on results. *)

From Stdlib Require Import String Ascii List NArith ZArith Lia ZifyNat Bool Arith.
From Stdlib.Strings Require Import Byte.
From stdpp Require Import base option list gmap strings pretty.

Abbreviation byte := Init.Byte.byte.

(** ** Python strings *)

(** [sub in s] *)
Fixpoint str_in (sub s : string) : bool :=
  String.prefix sub s ||
  match s with
  | EmptyString => false
  | String _ s' => str_in sub s'
  end.

Definition ascii_lower (c : ascii) : ascii :=
  let n := nat_of_ascii c in
  if (65 <=? n)%nat && (n <=? 90)%nat then ascii_of_nat (n + 32) else c.

(** [s.lower()] *)
Fixpoint lower (s : string) : string :=
  match s with
  | EmptyString => EmptyString
  | String c s' => String (ascii_lower c) (lower s')
  end.

(** [s.startswith(p)] *)
Definition startswith (s p : string) : bool := String.prefix p s.

(** [s.endswith(p)] *)
Definition endswith (s p : string) : bool :=
  (String.length p <=? String.length s)%nat &&
  String.eqb (String.substring (String.length s - String.length p) (String.length p) s) p.

(** [s[n:]] and [s[:-n]] for a literal [n] *)
Definition slice_from (n : nat) (s : string) : string :=
  String.substring n (String.length s - n) s.

Definition slice_to_minus (n : nat) (s : string) : string :=
  String.substring 0 (String.length s - n) s.

(** Truthiness of a [str], of an optional [str] and of optional [bytes]:
    [None] and the empty value are false. *)
Definition truthy_str (s : string) : bool := negb (String.eqb s "").

Definition truthy_text (t : option string) : bool :=
  match t with
  | Some s => truthy_str s
  | None => false
  end.

Definition truthy_bytes (b : option (list byte)) : bool :=
  match b with
  | Some (_ :: _) => true
  | _ => false
  end.

(** The double quote, for the literals of the source that contain one. *)
Definition dq : string := String (ascii_of_nat 34) EmptyString.

(** ** base64 (RFC 4648), as [base64.b64encode] computes it *)

Definition b64_alphabet : string :=
  "ABCDEFGHIJKLMNOPQRSTUVWXYZabcdefghijklmnopqrstuvwxyz0123456789+/".

Definition b64_pad : ascii := "="%char.

Definition b64_char (n : N) : ascii :=
  match String.get (N.to_nat n) b64_alphabet with
  | Some c => c
  | None => b64_pad
  end.

Fixpoint b64_find (c : ascii) (table : string) (i : N) : option N :=
  match table with
  | EmptyString => None
  | String d table' => if Ascii.eqb c d then Some i else b64_find c table' (N.succ i)
  end.

Definition b64_index (c : ascii) : option N := b64_find c b64_alphabet 0%N.

(** The 24 bits of three bytes, cut into four groups of six. *)
Definition b64_group (b0 b1 b2 : byte) : N * N * N * N :=
  let n := (Byte.to_N b0 * 65536 + Byte.to_N b1 * 256 + Byte.to_N b2)%N in
  ((n / 262144) mod 64, (n / 4096) mod 64, (n / 64) mod 64, n mod 64)%N.

Fixpoint b64encode (bs : list byte) : string :=
  match bs with
  | [] => EmptyString
  | [b0] =>
      let '(s0, s1, _, _) := b64_group b0 Byte.x00 Byte.x00 in
      String (b64_char s0) (String (b64_char s1) (String b64_pad (String b64_pad EmptyString)))
  | [b0; b1] =>
      let '(s0, s1, s2, _) := b64_group b0 b1 Byte.x00 in
      String (b64_char s0) (String (b64_char s1) (String (b64_char s2) (String b64_pad EmptyString)))
  | b0 :: b1 :: b2 :: rest =>
      let '(s0, s1, s2, s3) := b64_group b0 b1 b2 in
      String (b64_char s0) (String (b64_char s1) (String (b64_char s2)
        (String (b64_char s3) (b64encode rest))))
  end.

(** The three bytes of four six-bit groups. *)
Definition b64_ungroup (s0 s1 s2 s3 : N) : option (byte * byte * byte) :=
  let n := (((s0 * 64 + s1) * 64 + s2) * 64 + s3)%N in
  b0 ← Byte.of_N (n / 65536)%N;
  b1 ← Byte.of_N ((n / 256) mod 256)%N;
  b2 ← Byte.of_N (n mod 256)%N;
  Some (b0, b1, b2).

Fixpoint b64decode (s : string) : option (list byte) :=
  match s with
  | EmptyString => Some []
  | String c0 (String c1 (String c2 (String c3 rest))) =>
      s0 ← b64_index c0;
      s1 ← b64_index c1;
      if Ascii.eqb c3 b64_pad then
        if negb (String.eqb rest EmptyString) then None
        else if Ascii.eqb c2 b64_pad then
          '(b0, _, _) ← b64_ungroup s0 s1 0 0;
          Some [b0]
        else
          s2 ← b64_index c2;
          '(b0, b1, _) ← b64_ungroup s0 s1 s2 0;
          Some [b0; b1]
      else
        s2 ← b64_index c2;
        s3 ← b64_index c3;
        '(b0, b1, b2) ← b64_ungroup s0 s1 s2 s3;
        bs ← b64decode rest;
        Some (b0 :: b1 :: b2 :: bs)
  | _ => None
  end.

(** ** The story document *)

(** [class Story]: the attributes set by [__init__]. *)
Record Story := mkStory {
  title : string;
  moral : string;
  story : list string;
  imagePrompts : list string;
  images : list (option (list byte))
}.

(** [Story.__init__]: [self.images = images or []]. *)
Definition Story_init (title moral : string) (story imagePrompts : list string)
    (images : option (list (option (list byte)))) : Story :=
  mkStory title moral story imagePrompts
    (match images with
     | Some (x :: l) => x :: l
     | _ => []
     end).

(** The dictionary [to_dict] returns: its five keys are fixed. *)
Record StoryDict := mkStoryDict {
  d_title : string;
  d_moral : string;
  d_story : list string;
  d_imagePrompts : list string;
  d_images : list (option string)
}.

(** [Story.to_dict] *)
Definition to_dict (self : Story) : StoryDict :=
  mkStoryDict (title self) (moral self) (story self) (imagePrompts self)
    (map (fun img => if truthy_bytes img
                     then Some (b64encode (default [] img))
                     else None)
         (images self)).


(** What [to_dict] keeps of an entry of [images]: a blob that is present
    and not empty. *)
Definition present_image (img : option (list byte)) : option (list byte) :=
  if truthy_bytes img then img else None.

(** Modelled from the spec: the way back from the transport form, which the
    repository does not implement ("serializing a StoryDocument to the
    transport form and back").  Every present image is base64-decoded, a
    null stays a null, the other members are taken as they are. *)
Definition from_dict (d : StoryDict) : option Story :=
  imgs ← mapM (fun e : option string =>
                 match e with
                 | Some s => b ← b64decode s; Some (Some b)
                 | None => Some None
                 end) (d_images d);
  Some (mkStory (d_title d) (d_moral d) (d_story d) (d_imagePrompts d) imgs).

(** ** Exceptions *)

(** An exception, as its message [str(e)]. *)
Definition exn : Type := string.

(** [d[key]] on a member that may be absent: [KeyError], whose message is
    the quoted key. *)
Definition subscript {A : Type} (key : string) (member : option A) : exn + A :=
  match member with
  | Some v => inr v
  | None => inl ("'" +:+ key +:+ "'")
  end.

(** The test every retry loop applies to a caught exception:
    ["429" in str(e) or "quota" in str(e).lower()]. *)
Definition quota_signature (e : exn) : bool :=
  str_in "429" e || str_in "quota" (lower e).

(** ** The fallback content provider *)

Definition length_mapping : gmap string nat :=
  <["short" := 6]> (<["medium" := 8]> (<["long" := 12]> ∅)).

(** [length_mapping.get(story_length, 8)] *)
Definition sentence_count_of (story_length : string) : nat :=
  default 8 (length_mapping !! story_length).

(** One entry of [fallback_stories]: a dictionary with four fixed keys. *)
Record Template := mkTemplate {
  t_title : string;
  t_moral : string;
  t_story : list string;
  t_imagePrompts : list string
}.

Definition forest_template (kid_name : string) : Template :=
  {| t_title := kid_name +:+ "'s Magical Forest Adventure";
     t_moral := "Kindness to nature brings unexpected friends and rewards.";
     t_story := [
       "One sunny morning, " +:+ kid_name +:+ " decided to explore the magical forest near their home.";
       "The trees whispered secrets as " +:+ kid_name +:+ " walked deeper into the woods, discovering a hidden path covered with golden leaves.";
       "Suddenly, a small fox with bright blue eyes appeared and bowed to " +:+ kid_name +:+ ", saying, 'We've been waiting for you, special one!'";
       "The fox led " +:+ kid_name +:+ " to a clearing where animals of all kinds had gathered around an ancient oak tree that sparkled with tiny lights.";
       "'Our forest is losing its magic,' explained the wise old owl perched on a branch, 'and you have the kind heart needed to help restore it.'";
       kid_name +:+ " gently placed their hands on the ancient tree, and immediately felt a warm glow spreading through their fingers.";
       "As " +:+ kid_name +:+ " closed their eyes and wished for the forest's magic to return, colorful beams of light shot from their fingertips into the sky.";
       "The animals cheered as the forest came alive with vibrant colors and magical creatures, and they named " +:+ kid_name +:+ " their forever friend and protector of the forest."
     ];
     t_imagePrompts := [
       "A child named " +:+ kid_name +:+ " walking into a magical forest with sunlight streaming through the trees and tiny glowing sprites hiding among the leaves";
       "A friendly fox with bright blue eyes bowing to " +:+ kid_name +:+ " on a path covered with golden leaves in an enchanted forest";
       kid_name +:+ " standing in a forest clearing surrounded by woodland animals gathered around a giant ancient oak tree that sparkles with magical lights";
       kid_name +:+ " with hands on a magical tree trunk, colorful beams of light shooting from their fingertips into the sky as forest animals watch in amazement"
     ] |}.

Definition space_template (kid_name : string) : Template :=
  {| t_title := kid_name +:+ "'s Cosmic Journey";
     t_moral := "Courage and friendship can overcome any challenge in the universe.";
     t_story := [
       kid_name +:+ " was gazing at the stars through their telescope when a small, glowing spaceship landed in their backyard.";
       "A friendly alien with purple skin and three eyes emerged, introducing itself as Zorb from the planet Lumina.";
       "'We need your help,' Zorb explained to " +:+ kid_name +:+ ", 'our planet's cosmic crystal is fading, and without it, our world will lose all its light.'";
       "Without hesitation, " +:+ kid_name +:+ " climbed aboard the spaceship, which zoomed through the galaxy past swirling nebulae and shooting stars.";
       "When they arrived at Lumina, " +:+ kid_name +:+ " was amazed to see floating cities and rainbow bridges connecting crystal mountains.";
       "The planet's elders showed " +:+ kid_name +:+ " the dying crystal at the planet's core, which had lost its sparkle and glow.";
       kid_name +:+ " remembered the special stardust they had collected from a meteor shower and sprinkled it gently over the cosmic crystal.";
       "The crystal immediately burst into brilliant light, saving Lumina, and the grateful aliens made " +:+ kid_name +:+ " an honorary citizen of their world, promising they would always be friends across the stars."
     ];
     t_imagePrompts := [
       "A child named " +:+ kid_name +:+ " looking through a telescope at night when a small glowing spaceship lands in their backyard with stars twinkling in the sky";
       kid_name +:+ " meeting a friendly purple alien with three eyes named Zorb who has emerged from a spaceship with cosmic light surrounding them";
       kid_name +:+ " and alien Zorb flying through space in a glowing spaceship, passing colorful nebulae, planets, and shooting stars";
       kid_name +:+ " sprinkling magical stardust over a large crystal at the core of an alien planet, with the crystal bursting into brilliant rainbow light"
     ] |}.

Definition ocean_template (kid_name : string) : Template :=
  {| t_title := kid_name +:+ " and the Underwater Kingdom";
     t_moral := "True friendship means helping others in need, no matter how different they may be.";
     t_story := [
       kid_name +:+ " was playing at the beach when they discovered a beautiful shell that glowed with an otherworldly blue light.";
       "When " +:+ kid_name +:+ " picked up the shell, it transformed into a magical pendant that allowed them to breathe underwater.";
       "Curious and excited, " +:+ kid_name +:+ " waded into the ocean and dove beneath the waves, discovering an entire kingdom of merpeople living in coral palaces.";
       "The Mer-King approached " +:+ kid_name +:+ " and explained that their kingdom was in danger from a dark shadow that was poisoning their waters.";
       "'Only someone from the surface world with a pure heart can help us,' said the Mer-King, showing " +:+ kid_name +:+ " how the shadow was spreading through their beautiful home.";
       "Determined to help, " +:+ kid_name +:+ " followed the source of the darkness to an old shipwreck where plastic waste from the human world had collected.";
       "Using the magic of the pendant, " +:+ kid_name +:+ " created a whirlpool that gathered all the pollution into a ball that they could remove from the ocean.";
       "The grateful merpeople celebrated " +:+ kid_name +:+ "'s bravery with an underwater festival of lights, and promised that anytime " +:+ kid_name +:+ " returned to the sea, they would be welcomed as a hero."
     ];
     t_imagePrompts := [
       "A child named " +:+ kid_name +:+ " at the beach finding a beautiful shell that glows with magical blue light in their hands";
       kid_name +:+ " swimming underwater wearing a glowing blue pendant, approaching a magnificent coral palace where merpeople live";
       kid_name +:+ " and the Mer-King looking concerned at a dark shadow spreading through the colorful underwater kingdom";
       kid_name +:+ " creating a magical whirlpool underwater that collects pollution, surrounded by grateful merpeople with colorful tails"
     ] |}.

Definition kingdom_template (kid_name : string) : Template :=
  {| t_title := kid_name +:+ " and the Dragon's Gift";
     t_moral := "True courage means facing your fears to help others.";
     t_story := [
       "In a kingdom far away, everyone was afraid of the dragon that lived in the mountain cave, except for " +:+ kid_name +:+ ", who was curious rather than frightened.";
       "One day, " +:+ kid_name +:+ " decided to visit the dragon, climbing the winding mountain path with only a lantern and a basket of freshly baked cookies.";
       "Inside the cave, " +:+ kid_name +:+ " discovered not a fearsome beast, but a sad dragon named Ember who was crying glittering tears that turned into gemstones when they hit the ground.";
       "'Everyone is afraid of me,' Ember explained to " +:+ kid_name +:+ ", 'but I'm actually lonely and just want to make friends with the people in the kingdom.'";
       kid_name +:+ " had an idea and invited Ember to visit the kingdom during the annual festival, promising that they would help everyone see how gentle the dragon truly was.";
       "When the festival day arrived, " +:+ kid_name +:+ " led Ember to the kingdom square where people initially ran away in fear, hiding behind market stalls and castle walls.";
       kid_name +:+ " bravely stood beside Ember and explained to everyone that the dragon only wanted friendship and could help the kingdom with its magical fire that could forge the strongest tools and most beautiful art.";
       "Slowly, the people approached and welcomed Ember, and from that day forward, the kingdom flourished as " +:+ kid_name +:+ " and Ember taught everyone that appearances can be deceiving and friendship can be found in the most unexpected places."
     ];
     t_imagePrompts := [
       "A child named " +:+ kid_name +:+ " climbing a mountain path with a lantern and basket of cookies, approaching a cave with a faint glow coming from inside";
       kid_name +:+ " sitting beside a gentle dragon named Ember inside a cave, with the dragon crying glittering tears that turn into gemstones";
       kid_name +:+ " leading a colorful dragon named Ember into a medieval kingdom during a festival, with people hiding behind market stalls";
       kid_name +:+ " and dragon Ember surrounded by smiling villagers in a medieval kingdom square, with the dragon using magical fire to create beautiful art"
     ] |}.

Definition dinosaur_template (kid_name : string) : Template :=
  {| t_title := kid_name +:+ "'s Prehistoric Adventure";
     t_moral := "Teamwork and understanding can overcome the biggest challenges.";
     t_story := [
       kid_name +:+ " was digging in their backyard when their shovel hit something hard that turned out to be an unusual egg-shaped stone with swirling patterns.";
       "That night, the stone began to glow and pulse with light, and suddenly " +:+ kid_name +:+ " found themselves transported to a prehistoric world filled with towering trees and giant ferns.";
       "A baby Triceratops nudged " +:+ kid_name +:+ "'s hand, looking up with friendly eyes that seemed to ask for help finding its family.";
       kid_name +:+ " and the baby dinosaur set off through the lush jungle, crossing bubbling lava streams and avoiding quicksand pits.";
       "Along the way, they met other dinosaurs â€“ a helpful Pteranodon that showed them the way from above, and a gentle Brachiosaurus that helped them cross a wide river.";
       "Suddenly, the ground began to shake as a Tyrannosaurus Rex appeared, but instead of being scary, the T-Rex had a thorn stuck in its foot and was roaring in pain.";
       kid_name +:+ " bravely approached the mighty dinosaur and carefully removed the thorn, earning a grateful nod from the T-Rex who then led them to the Triceratops herd.";
       "After a joyful reunion with the baby's family, the stone began to glow again, and " +:+ kid_name +:+ " was transported home with a tiny dinosaur footprint fossil as a reminder of their amazing adventure."
     ];
     t_imagePrompts := [
       "A child named " +:+ kid_name +:+ " in their backyard finding a glowing egg-shaped stone with swirling patterns while digging";
       kid_name +:+ " in a prehistoric jungle with a baby Triceratops nudging their hand, surrounded by giant ferns and towering trees";
       kid_name +:+ " and a baby Triceratops approaching a T-Rex with a thorn in its foot in a prehistoric landscape with volcanoes in the background";
       kid_name +:+ " surrounded by a herd of Triceratops in a prehistoric setting, holding a glowing stone as it begins to transport them home"
     ] |}.

Definition fallback_stories (kid_name : string) : gmap string Template :=
  <["forest" := forest_template kid_name]>
  (<["space" := space_template kid_name]>
  (<["ocean" := ocean_template kid_name]>
  (<["kingdom" := kingdom_template kid_name]>
  (<["dinosaur" := dinosaur_template kid_name]> ∅)))).

(** [while len(l) < n: l.append(x)], run for at most [fuel] iterations. *)
Fixpoint append_while_shorter {A : Type} (fuel : nat) (l : list A) (n : nat) (x : A) : list A :=
  match fuel with
  | 0 => l
  | S fuel' => if (length l <? n)%nat then append_while_shorter fuel' (l ++ [x]) n x else l
  end.

Definition filler_sentence (kid_name : string) : string :=
  kid_name +:+ " had an amazing adventure and couldn't wait to tell everyone about it.".

Definition filler_prompt (kid_name theme : string) : string :=
  kid_name +:+ " having a wonderful adventure in a magical " +:+ theme +:+ " setting.".

(** Shape correction in the words of the specification: the list cut to
    [n] entries when it is longer, filled up with [x] to [n] entries when
    it is shorter.  It is what the code is compared with. *)
Definition shape_to {A : Type} (n : nat) (x : A) (l : list A) : list A :=
  take n (l ++ replicate (n - length l) x).

(** [create_fallback_story].  The dictionary of templates is built afresh by
    every call, so the updates in place of lines 447 to 458 are local to
    the call; each loop needs at most [sentence_count] iterations, which is
    the fuel it is given. *)
Definition create_fallback_story
    (kid_name theme story_type story_length special_ingredients child_description : string)
    : exn + Story :=
  let sentence_count := sentence_count_of story_length in
  let fallback_stories := fallback_stories kid_name in
  let theme :=
    match fallback_stories !! theme with
    | None => "forest"
    | Some _ => theme
    end in
  match fallback_stories !! theme with
  | None => inl ("'" +:+ theme +:+ "'")
  | Some fallback_story =>
      let '(sentences, prompts) :=
        if negb (length (t_story fallback_story) =? sentence_count)%nat then
          if (sentence_count <? length (t_story fallback_story))%nat then
            let img_count := (sentence_count / 2)%nat in
            (take sentence_count (t_story fallback_story),
             take img_count (t_imagePrompts fallback_story))
          else
            let sentences :=
              append_while_shorter sentence_count (t_story fallback_story)
                sentence_count (filler_sentence kid_name) in
            let img_count := (sentence_count / 2)%nat in
            (sentences,
             append_while_shorter sentence_count (t_imagePrompts fallback_story)
               img_count (filler_prompt kid_name theme))
        else (t_story fallback_story, t_imagePrompts fallback_story) in
      let placeholder_images := replicate (length prompts) (@None (list byte)) in
      inr (Story_init (t_title fallback_story) (t_moral fallback_story)
             sentences prompts (Some placeholder_images))
  end.

(** ** The generation backend and the effects of the pipeline *)

Definition GEMINI_TEXT_MODEL : string := "gemini-1.5-flash".
Definition GEMINI_VISION_MODEL : string := "gemini-1.5-flash".
Definition GEMINI_IMAGE_MODEL : string := "gemini-2.0-flash-preview-image-generation".

Definition max_retries : nat := 3.
Definition base_delay : nat := 2.

Definition default_description : string :=
  "A cheerful child with a bright smile and curious eyes.".

Definition nl : string := String (ascii_of_nat 10) EmptyString.

(** What [generate_content] is given: a prompt, or a prompt and an image. *)
Inductive Contents (Image : Type) : Type :=
| Text (prompt : string)
| TextAndImage (prompt : string) (image : Image).
Arguments Text {Image} prompt.
Arguments TextAndImage {Image} prompt image.

(** What it answers, as far as the code reads it. *)
Record Blob := mkBlob { data : option (list byte) }.
Record Part := mkPart { inline_data : option Blob }.
Record Content := mkContent { parts : list Part }.
Record Candidate := mkCandidate { content : option Content }.
Record Response := mkResponse { text : option string; candidates : list Candidate }.

(** The parsed reply of the text model.  It is taken to be a JSON object
    whose members, when present, have the types [Story] declares; a member
    may be absent. *)
Record StoryData := mkStoryData {
  sd_title : option string;
  sd_moral : option string;
  sd_story : option (list string);
  sd_imagePrompts : option (list string)
}.

(** The places where the code sleeps: the backoff of one of the three retry
    loops, or the fixed pause after each image prompt. *)
Inductive Stage := Photo | Narrative | Illustration.

Inductive Event :=
| Backoff (stage : Stage) (seconds : nat)
| Pause (seconds : nat).

(** A computation is given the number of backend calls made so far and
    returns its result, the new number of calls and the sleeps it made, in
    order. *)
Definition M (A : Type) : Type := nat -> A * nat * list Event.

#[global] Instance M_ret : MRet M := fun A a n => (a, n, []).

#[global] Instance M_bind : MBind M := fun A B f m n =>
  let '(a, n1, ev1) := m n in
  let '(b, n2, ev2) := f a n1 in
  (b, n2, ev1 ++ ev2).

(** [time.sleep] *)
Definition sleep (e : Event) : M unit := fun n => (tt, n, [e]).

Definition backoff (stage : Stage) (attempt : nat) : M unit :=
  sleep (Backoff stage (base_delay * 2 ^ attempt)).

(** Lines 276 to 281: the data of the first part that has inline data. *)
Fixpoint first_inline_data (ps : list Part) : option (list byte) :=
  match ps with
  | [] => None
  | part :: ps' =>
      match inline_data part with
      | Some blob => data blob
      | None => first_inline_data ps'
      end
  end.

Definition image_data_of (response : Response) : option (list byte) :=
  match candidates response with
  | candidate :: _ =>
      match content candidate with
      | Some c => first_inline_data (parts c)
      | None => None
      end
  | [] => None
  end.

(** How an iteration of a retry loop over the narrative ends, and how the
    loop itself does. *)
Inductive Attempt := OpReturn (s : Story) | OpEmpty | OpRaise (e : exn).

Inductive LoopExit := Returned (s : Story) | Raised (e : exn) | Fallthrough.

(** The seconds slept by the backoff of one retry loop, in order. *)
Definition backoffs_of (stage : Stage) (evs : list Event) : list nat :=
  omap (fun e => match e with
                 | Backoff st seconds =>
                     match stage, st with
                     | Photo, Photo | Narrative, Narrative
                     | Illustration, Illustration => Some seconds
                     | _, _ => None
                     end
                 | Pause _ => None
                 end) evs.

(** The events of the illustration generator. *)
Definition illustration_event (e : Event) : bool :=
  match e with
  | Backoff Illustration _ | Pause _ => true
  | Backoff _ _ => false
  end.

(** An iteration over the narrative that ends without a story and without
    a quota signature. *)
Definition failed_without_quota (r : Attempt) : bool :=
  match r with
  | OpReturn _ => false
  | OpEmpty => true
  | OpRaise e => negb (quota_signature e)
  end.

(** The surroundings of the module.  The libraries it calls: PIL's
    [Image.open], [str.strip], and [json.loads] followed by the view of its
    result as [StoryData].  The module globals set at import time:
    [API_INITIALIZED] and [client]; the client, when there is one, answers
    a call from its position in the sequence of calls, the model, the
    contents and the response modalities asked for. *)
Module Env.
Record t := mk {
  Image : Type;
  Image_open : list byte -> exn + Image;
  strip : string -> string;
  json_loads : string -> exn + StoryData;
  API_INITIALIZED : bool;
  client :
    option (nat -> string -> Contents Image -> option (list string) -> exn + Response)
}.
End Env.

Section Pipeline.

Variable env : Env.t.

Local Abbreviation Image := (Env.Image env).
Local Abbreviation Image_open := (Env.Image_open env).
Local Abbreviation strip := (Env.strip env).
Local Abbreviation json_loads := (Env.json_loads env).
Local Abbreviation API_INITIALIZED := (Env.API_INITIALIZED env).
Local Abbreviation client := (Env.client env).

Definition truthy_client : bool :=
  match client with
  | Some _ => true
  | None => false
  end.

(** [client.models.generate_content(...)] *)
Definition generate_content (model : string) (contents : Contents Image)
    (config : option (list string)) : M (exn + Response) :=
  fun n =>
    match client with
    | Some backend => (backend n model contents config, S n, [])
    | None => (inl "'NoneType' object has no attribute 'models'", n, [])
    end.

(** *** [analyze_photo] *)

Definition vision_prompt : string :=
  nl +:+
  "        Describe this child in detail for a storybook character description. " +:+ nl +:+
  "        Include physical attributes like hair color, eye color, clothing, and any " +:+ nl +:+
  "        distinctive features. Keep the description child-friendly and positive." +:+ nl +:+
  "        Focus only on the child in the image." +:+ nl +:+
  "        Provide the description in 3-4 sentences maximum." +:+ nl +:+
  "        ".

(** The retry loop of lines 85 to 106; leaving it reaches line 108. *)
Fixpoint photo_attempts (contents : Contents Image) (attempts : list nat) : M string :=
  match attempts with
  | [] => mret default_description
  | attempt :: rest =>
      let next : M string :=
        (if (attempt <? max_retries - 1)%nat then backoff Photo attempt else mret tt) ≫= fun _ =>
        photo_attempts contents rest in
      r ← generate_content GEMINI_VISION_MODEL contents None;
      match r with
      | inr response =>
          if truthy_text (text response)
          then mret (strip (default "" (text response)))
          else next
      | inl retry_error =>
          if quota_signature retry_error
          then mret default_description
          else next
      end
  end.

Definition analyze_photo (photo_bytes : list byte) : M string :=
  if negb API_INITIALIZED || negb truthy_client then mret default_description
  else
    match Image_open photo_bytes with
    | inl e => mret default_description
    | inr image =>
        photo_attempts (TextAndImage vision_prompt image) (seq 0 max_retries)
    end.

(** *** [generate_images] *)

Definition enhanced_prompt (prompt : string) : string :=
  "A children's storybook illustration of: " +:+ prompt +:+
  ". Style: colorful, friendly, vibrant, storybook art.".

(** The retry loop of lines 261 to 308 for one prompt, on the list
    [images] built so far. *)
Fixpoint image_attempts (prompt : string) (attempts : list nat)
    (images : list (option (list byte))) : M (list (option (list byte))) :=
  match attempts with
  | [] => mret images
  | attempt :: rest =>
      let next : M (list (option (list byte))) :=
        if (attempt <? max_retries - 1)%nat
        then backoff Illustration attempt ≫= fun _ => image_attempts prompt rest images
        else image_attempts prompt rest (images ++ [None]) in
      r ← generate_content GEMINI_IMAGE_MODEL (Text (enhanced_prompt prompt))
            (Some ["TEXT"; "IMAGE"]);
      match r with
      | inr response =>
          let image_data := image_data_of response in
          if truthy_bytes image_data
          then mret (images ++ [image_data])
          else next
      | inl retry_error =>
          if quota_signature retry_error
          then mret (images ++ [None])
          else next
      end
  end.

(** The loop over the prompts, lines 257 to 310. *)
Fixpoint images_loop (prompts : list string) (images : list (option (list byte)))
    : M (list (option (list byte))) :=
  match prompts with
  | [] => mret images
  | prompt :: rest =>
      images ← image_attempts prompt (seq 0 max_retries) images;
      _ ← sleep (Pause 1);
      images_loop rest images
  end.

(** Nothing in the body of the outer [try] can raise on a list of
    strings, so its handler (line 314) has no counterpart here. *)
Definition generate_images (prompts : list string) (story_context : string)
    : M (list (option (list byte))) :=
  if negb API_INITIALIZED || negb truthy_client
  then mret (replicate (length prompts) None)
  else images_loop prompts [].

(** *** [generate_story] *)

Definition theme_descriptions (special_ingredients : string) : gmap string string :=
  <["forest" := "magical forest with talking animals and ancient trees"]>
  (<["space" := "outer space adventure with planets, stars, and alien friends"]>
  (<["ocean" := "underwater kingdom with colorful fish and hidden treasures"]>
  (<["kingdom" := "magical kingdom with castles, dragons, and wizards"]>
  (<["dinosaur" := "prehistoric world with friendly dinosaurs and ancient landscapes"]>
  (<["custom" := if truthy_str special_ingredients then special_ingredients
                 else "magical world of wonder and adventure"]> ∅))))).

Definition story_prompt
    (kid_name age_level story_type special_ingredients child_description
     theme_description : string) (sentence_count : nat) : string :=
  nl +:+
  "        I want you to create a children's story with the following details:" +:+ nl +:+
  "        " +:+ nl +:+
  "        # Character Details:" +:+ nl +:+
  "        - Main character name: " +:+ kid_name +:+ nl +:+
  "        - Character description: " +:+ child_description +:+ nl +:+
  "        - Age level: " +:+ age_level +:+ nl +:+
  "        " +:+ nl +:+
  "        # Story Setting:" +:+ nl +:+
  "        - Theme: " +:+ theme_description +:+ nl +:+
  "        - Story type: " +:+ story_type +:+ nl +:+
  "        " +:+ nl +:+
  "        # Special Elements:" +:+ nl +:+
  "        " +:+ special_ingredients +:+ nl +:+
  "        " +:+ nl +:+
  "        # Specific Instructions:" +:+ nl +:+
  "        1. The story should be appropriate for the age group " +:+ age_level +:+ "." +:+ nl +:+
  "        2. The story should be composed of short sentences with simple words that are easy to pronounce." +:+ nl +:+
  "        3. Make " +:+ kid_name +:+ " the central character of the story based on the provided description." +:+ nl +:+
  "        4. The progression of the story should be consistent with a clear start, middle & end with a satisfying conclusion." +:+ nl +:+
  "        5. Consider using rhyme & repetition in the story & incorporate vivid imagery for the story environment." +:+ nl +:+
  "        6. The story MUST ALWAYS BE EXACTLY " +:+ pretty sentence_count +:+ " sentences long. Provide a title as well as a moral." +:+ nl +:+
  "        7. Once you create the entire story, combining 2 story sentences at a time; create a total of " +:+ pretty (sentence_count / 2)%nat +:+ " one line prompts for generating images of the story." +:+ nl +:+
  "        8. Consider the entire story when creating image prompts." +:+ nl +:+
  "        9. Always include character information in the prompt. For example, if the character is a human, animal etc." +:+ nl +:+
  "        10. The prompts should be self contained but also convey the context with respect to the complete story." +:+ nl +:+
  "        11. DO NOT use markdown in the response & provide the details in the form of the following JSON structure:" +:+ nl +:+
  "        {" +:+ nl +:+
  "            " +:+ dq +:+ "title" +:+ dq +:+ ": " +:+ dq +:+ "Story Title" +:+ dq +:+ "," +:+ nl +:+
  "            " +:+ dq +:+ "moral" +:+ dq +:+ ": " +:+ dq +:+ "The moral of the story" +:+ dq +:+ "," +:+ nl +:+
  "            " +:+ dq +:+ "story" +:+ dq +:+ ": [" +:+ dq +:+ "Sentence 1" +:+ dq +:+ ", " +:+ dq +:+ "Sentence 2" +:+ dq +:+ ", ...]," +:+ nl +:+
  "            " +:+ dq +:+ "imagePrompts" +:+ dq +:+ ": [" +:+ dq +:+ "Image prompt 1" +:+ dq +:+ ", " +:+ dq +:+ "Image prompt 2" +:+ dq +:+ ", ...]" +:+ nl +:+
  "        }" +:+ nl +:+
  "        ".

(** Lines 132 to 183: the prompt [generate_story] sends. *)
Definition generate_story_prompt
    (kid_name age_level theme story_type story_length special_ingredients
     child_description : string) : string :=
  let sentence_count := sentence_count_of story_length in
  let theme_descriptions := theme_descriptions special_ingredients in
  let theme_description :=
    default (default "" (theme_descriptions !! "custom"))
            (theme_descriptions !! theme) in
  story_prompt kid_name age_level story_type special_ingredients
    child_description theme_description sentence_count.

(** One pass through the body of the [try] of lines 188 to 222, without
    the bookkeeping of the retries: the request, the removal of the
    fences, the parsing, the illustrations and the document. *)
Definition story_operation (prompt : string) : M Attempt :=
  r ← generate_content GEMINI_TEXT_MODEL (Text prompt) None;
  match r with
  | inl e => mret (OpRaise e)
  | inr response =>
      if negb (truthy_text (text response)) then mret OpEmpty
      else
        let text := strip (default "" (text response)) in
        let text := if startswith text "```json" then slice_from 7 text else text in
        let text := if endswith text "```" then slice_to_minus 3 text else text in
        match json_loads text with
        | inl e => mret (OpRaise e)
        | inr story_data =>
            match subscript "imagePrompts" (sd_imagePrompts story_data),
                  subscript "story" (sd_story story_data) with
            | inl e, _ => mret (OpRaise e)
            | inr _, inl e => mret (OpRaise e)
            | inr prompts, inr sentences =>
                images ← generate_images prompts (String.concat " " sentences);
                match subscript "title" (sd_title story_data),
                      subscript "moral" (sd_moral story_data) with
                | inl e, _ => mret (OpRaise e)
                | inr _, inl e => mret (OpRaise e)
                | inr title, inr moral =>
                    mret (OpReturn (Story_init title moral sentences prompts (Some images)))
                end
            end
        end
  end.

(** The retry loop of lines 187 to 235.  [fallback] is the value of the
    call of [create_fallback_story] at line 228. *)
Fixpoint story_attempts (fallback : exn + Story) (prompt : string)
    (attempts : list nat) : M LoopExit :=
  match attempts with
  | [] => mret Fallthrough
  | attempt :: rest =>
      let handler (e : exn) : M LoopExit :=
        if quota_signature e then
          mret (match fallback with
                | inr s => Returned s
                | inl e' => Raised e'
                end)
        else if (attempt <? max_retries - 1)%nat then
          backoff Narrative attempt ≫= fun _ => story_attempts fallback prompt rest
        else
          mret (Raised ("Failed to generate story after " +:+ pretty max_retries +:+
                        " attempts: " +:+ e)) in
      r ← story_operation prompt;
      match r with
      | OpReturn s => mret (Returned s)
      | OpEmpty =>
          if (attempt <? max_retries - 1)%nat then
            backoff Narrative attempt ≫= fun _ => story_attempts fallback prompt rest
          else handler "Failed to generate story content"
      | OpRaise e => handler e
      end
  end.

(** [generate_story]: a story, [None] if the loop were left without a
    [return], or the exception raised. *)
Definition generate_story
    (kid_name age_level theme story_type story_length special_ingredients
     child_description : string) : M (exn + option Story) :=
  let fallback :=
    create_fallback_story kid_name theme story_type story_length
      special_ingredients child_description in
  r ← (if negb API_INITIALIZED || negb truthy_client
       then mret (Raised "Gemini API not initialized")
       else
         let prompt :=
           generate_story_prompt kid_name age_level theme story_type story_length
             special_ingredients child_description in
         story_attempts fallback prompt (seq 0 max_retries));
  match r with
  | Returned s => mret (inr (Some s))
  | Fallthrough => mret (inr None)
  | Raised e =>
      if quota_signature e then
        mret (match fallback with
              | inr s => inr (Some s)
              | inl e' => inl e'
              end)
      else mret (inl e)
  end.

(** *** [process_story_request] *)

Definition process_story_request
    (kid_name : string) (kid_photo : list byte)
    (age_level theme story_type story_length special_ingredients : string)
    : M (exn + StoryDict) :=
  if negb API_INITIALIZED then
    mret (match create_fallback_story kid_name theme story_type story_length
                  special_ingredients default_description with
          | inr story => inr (to_dict story)
          | inl e => inl e
          end)
  else
    child_description ← analyze_photo kid_photo;
    r ← generate_story kid_name age_level theme story_type story_length
          special_ingredients child_description;
    let handler (e : exn) : M (exn + StoryDict) :=
      let child_description := default_description in
      let child_description :=
        if truthy_str child_description then child_description else child_description in
      mret (match create_fallback_story kid_name theme story_type story_length
                    special_ingredients child_description with
            | inr story => inr (to_dict story)
            | inl e' => inl e'
            end) in
    match r with
    | inr (Some story) => mret (inr (to_dict story))
    | inr None => handler "'NoneType' object has no attribute 'to_dict'"
    | inl e => handler e
    end.

(** *** Notions used to state the properties *)

(** The answer to the request for one image made as call number [n]. *)
Definition image_call (prompt : string) (n : nat) : exn + Response :=
  (generate_content GEMINI_IMAGE_MODEL (Text (enhanced_prompt prompt))
     (Some ["TEXT"; "IMAGE"]) n).1.1.

(** An image attempt that neither yields an image nor carries a quota
    signature, and one that carries a quota signature. *)
Definition image_soft_failure (r : exn + Response) : bool :=
  match r with
  | inl e => negb (quota_signature e)
  | inr response => negb (truthy_bytes (image_data_of response))
  end.

Definition image_quota_failure (r : exn + Response) : bool :=
  match r with
  | inl e => quota_signature e
  | inr _ => false
  end.

(** The image an attempt delivers, if it does. *)
Definition image_delivered (r : exn + Response) : option (list byte) :=
  match r with
  | inr response =>
      if truthy_bytes (image_data_of response) then image_data_of response else None
  | inl _ => None
  end.

(** The same notions for the request of the photo analysis. *)
Definition photo_call (contents : Contents Image) (n : nat) : exn + Response :=
  (generate_content GEMINI_VISION_MODEL contents None n).1.1.

Definition photo_soft_failure (r : exn + Response) : bool :=
  match r with
  | inl e => negb (quota_signature e)
  | inr response => negb (truthy_text (text response))
  end.

Definition photo_answer (r : exn + Response) : option string :=
  match r with
  | inr response =>
      if truthy_text (text response) then Some (strip (default "" (text response)))
      else None
  | inl _ => None
  end.

(** The number of backend calls made once the narrative operation has
    run [i] times, the first time after [n] calls. *)
Fixpoint calls_after (prompt : string) (i n : nat) : nat :=
  match i with
  | 0 => n
  | S i' => calls_after prompt i' (story_operation prompt n).1.2
  end.

End Pipeline.

(** ** Scripted backends, for the examples *)

(** A backend that answers its [n]-th call with the [n]-th entry of a
    script, and with a server error once the script is used up. *)
Definition scripted (script : list (exn + Response))
    : nat -> string -> Contents unit -> option (list string) -> exn + Response :=
  fun n _ _ _ => default (inl "503 Service Unavailable") (script !! n).

Definition text_response (s : string) : Response := mkResponse (Some s) [].

Definition image_response (d : list byte) : Response :=
  mkResponse None
    [mkCandidate (Some (mkContent [mkPart None; mkPart (Some (mkBlob (Some d)))]))].

Definition demo_story_data : StoryData :=
  {| sd_title := Some "Mia and the Moon";
     sd_moral := Some "Be kind.";
     sd_story := Some ["Mia looked up."; "The moon smiled."];
     sd_imagePrompts := Some ["Mia and the moon"] |}.

Definition demo_json_loads (s : string) : exn + StoryData :=
  if String.eqb s "{}" then inr demo_story_data
  else inl "Expecting value: line 1 column 1 (char 0)".

Definition demo_Image_open (photo_bytes : list byte) : exn + unit := inr tt.

Definition demo_strip (s : string) : string := s.

Definition demo_image : list byte := [Byte.x89; Byte.x50; Byte.x4e; Byte.x47].

(** The environment of the examples: the backend follows a script, every
    photo is readable, nothing is stripped and the only reply that parses
    is ["{}"]. *)
Definition demo_env (initialized : bool) (script : list (exn + Response)) : Env.t :=
  Env.mk unit demo_Image_open demo_strip demo_json_loads initialized
    (Some (scripted script)).

Definition demo_story : Story :=
  mkStory "Mia and the Moon" "Be kind." ["Mia looked up."; "The moon smiled."]
    ["Mia and the moon"] [Some demo_image].

(** ** Further parts of the code *)

(** *** The module globals, lines 26 to 39 *)

(** The [try] that sets [API_INITIALIZED] and [client] when the module is
    imported, from the value of [os.environ.get("GEMINI_API_KEY")] and from
    [genai.Client], which may raise. *)
Definition module_init {Client : Type} (GEMINI_API_KEY : option string)
    (genai_Client : string -> exn + Client) : bool * option Client :=
  let body : exn + bool * option Client :=
    if negb (truthy_text GEMINI_API_KEY) then
      inl "GEMINI_API_KEY environment variable is not set."
    else
      match genai_Client (default "" GEMINI_API_KEY) with
      | inl e => inl e
      | inr client => inr (true, Some client)
      end in
  match body with
  | inr globals => globals
  | inl e => (false, None)
  end.

(** The environment the module runs in after this initialization. *)
Definition module_env (Image : Type) (Image_open : list byte -> exn + Image)
    (strip : string -> string) (json_loads : string -> exn + StoryData)
    (GEMINI_API_KEY : option string)
    (genai_Client :
       string ->
       exn + (nat -> string -> Contents Image -> option (list string) -> exn + Response))
    : Env.t :=
  Env.mk Image Image_open strip json_loads
    (module_init GEMINI_API_KEY genai_Client).1
    (module_init GEMINI_API_KEY genai_Client).2.

(** *** The reply of the text model, lines 190 to 212 *)

(** Lines 206 to 209: the fences taken off the stripped reply. *)
Definition unfence (text : string) : string :=
  let text := if startswith text "```json" then slice_from 7 text else text in
  let text := if endswith text "```" then slice_to_minus 3 text else text in
  text.

(** What [json.loads] makes of the reply to call number [n], when this
    reply has content. *)
Definition parsed_reply (env : Env.t) (prompt : string) (n : nat)
    : option (exn + StoryData) :=
  match (generate_content env GEMINI_TEXT_MODEL (Text prompt) None n).1.1 with
  | inr response =>
      if truthy_text (text response)
      then Some (Env.json_loads env (unfence (Env.strip env (default "" (text response)))))
      else None
  | inl _ => None
  end.

(** The seconds of the pauses between image prompts, in order. *)
Definition pauses_of (evs : list Event) : list nat :=
  omap (fun e => match e with
                 | Pause seconds => Some seconds
                 | Backoff _ _ => None
                 end) evs.

(** A [strip] for the examples: spaces taken off both ends. *)
Fixpoint lstrip_spaces (s : string) : string :=
  match s with
  | String c s' => if Ascii.eqb c " " then lstrip_spaces s' else s
  | EmptyString => EmptyString
  end.

Definition strip_spaces (s : string) : string :=
  String.rev (lstrip_spaces (String.rev (lstrip_spaces s))).

(** *** The request layer, [backend/server.py] *)

Module HTTPException.
Record t := mk { status_code : nat; detail : string }.
End HTTPException.

(** [class GeneratedStory(BaseModel)]; a [datetime] is kept as a number. *)
Module GeneratedStory.
Record t := mk {
  id : string;
  kid_name : string;
  age_level : string;
  theme : string;
  story_type : string;
  story_length : string;
  special_ingredients : string;
  title : string;
  moral : string;
  story : list string;
  image_prompts : list string;
  images : list (option string);
  created_at : nat
}.
End GeneratedStory.

(** [class StoryResponse(BaseModel)] *)
Module StoryResponse.
Record t := mk {
  id : string;
  title : string;
  moral : string;
  story : list string;
  images : list (option string);
  created_at : nat
}.
End StoryResponse.

Module Server.

(** What a [try] of the request layer may raise: an [HTTPException] of its
    own, or another exception, kept as its message. *)
Inductive Exc :=
| Http (e : HTTPException.t)
| Other (msg : exn).

(** The [StoryResponse] built from a stored document, as in [get_story]. *)
Definition response_of (story_doc : GeneratedStory.t) : StoryResponse.t :=
  StoryResponse.mk
    (GeneratedStory.id story_doc)
    (GeneratedStory.title story_doc)
    (GeneratedStory.moral story_doc)
    (GeneratedStory.story story_doc)
    (GeneratedStory.images story_doc)
    (GeneratedStory.created_at story_doc).

(** [POST /api/stories/generate].  [kid_photo_read] is the outcome of
    [await kid_photo.read()]; [uuid4] and [utcnow] are the values the
    default factories of [GeneratedStory] produce.  The result is the
    response together with the document handed to the background task, or
    the [HTTPException] raised by the handler of line 154. *)
Definition generate_story (env : Env.t) (uuid4 : string) (utcnow : nat)
    (kid_name age_level theme story_type story_length special_ingredients : string)
    (kid_photo_read : exn + list byte)
    : M (HTTPException.t + StoryResponse.t * GeneratedStory.t) :=
  r ← match kid_photo_read with
      | inl e => mret (inl e)
      | inr photo_bytes =>
          r ← process_story_request env kid_name photo_bytes age_level theme story_type
                story_length special_ingredients;
          match r with
          | inl e => mret (inl e)
          | inr story_data =>
              let story_doc :=
                GeneratedStory.mk uuid4 kid_name age_level theme story_type story_length
                  special_ingredients (d_title story_data) (d_moral story_data)
                  (d_story story_data) (d_imagePrompts story_data) (d_images story_data)
                  utcnow in
              mret (inr (StoryResponse.mk
                           (GeneratedStory.id story_doc)
                           (GeneratedStory.title story_doc)
                           (GeneratedStory.moral story_doc)
                           (GeneratedStory.story story_doc)
                           (GeneratedStory.images story_doc)
                           (GeneratedStory.created_at story_doc),
                         story_doc))
          end
      end;
  match r with
  | inr answer => mret (inr answer)
  | inl e => mret (inl (HTTPException.mk 500 ("Failed to generate story: " +:+ e)))
  end.

(** [GET /api/stories/{story_id}].  [find_one] is
    [db.stories.find_one({"id": story_id})], which may raise; [str_http] is
    [str] on an [HTTPException]. *)
Definition get_story (find_one : string -> exn + option GeneratedStory.t)
    (str_http : HTTPException.t -> string) (story_id : string)
    : HTTPException.t + StoryResponse.t :=
  let body : Exc + StoryResponse.t :=
    match find_one story_id with
    | inl e => inl (Other e)
    | inr None => inl (Http (HTTPException.mk 404 "Story not found"))
    | inr (Some story) => inr (response_of story)
    end in
  match body with
  | inr response => inr response
  | inl e =>
      let message :=
        match e with
        | Http h => str_http h
        | Other msg => msg
        end in
      inl (HTTPException.mk 500 ("Failed to retrieve story: " +:+ message))
  end.

End Server.

(** The seconds a run sleeps in all, backoffs and pauses together. *)
Definition seconds_slept (evs : list Event) : nat :=
  foldr (fun e total =>
           match e with
           | Backoff _ seconds | Pause seconds => seconds + total
           end) 0 evs.

(** A story whose images are aligned with its image prompts, each of them
    null or image data that is not empty. *)
Definition aligned (s : Story) : Prop :=
  length (images s) = length (imagePrompts s) /\
  Forall (fun img => img = None \/ truthy_bytes img = true) (images s).

(** Two more environments for the examples: one whose [strip] takes the
    spaces off, and one whose parser finds a story without a title. *)
Definition blank_env (script : list (exn + Response)) : Env.t :=
  Env.mk unit demo_Image_open strip_spaces demo_json_loads true (Some (scripted script)).

Definition untitled_story_data : StoryData :=
  {| sd_title := None;
     sd_moral := Some "Be kind.";
     sd_story := Some ["Mia looked up."; "The moon smiled."];
     sd_imagePrompts := Some ["Mia and the moon"] |}.

Definition untitled_env (script : list (exn + Response)) : Env.t :=
  Env.mk unit demo_Image_open demo_strip (fun _ => inr untitled_story_data) true
    (Some (scripted script)).

(** ** Properties of the pure parts *)

(** *** base64 *)

Lemma b64_table_ok :
  forallb (fun i => let n := N.of_nat i in
     match b64_index (b64_char n) with Some m => N.eqb m n | None => false end
     && negb (Ascii.eqb (b64_char n) b64_pad)) (seq 0 64) = true.
Proof. vm_compute. reflexivity. Qed.

Lemma b64_char_spec n : (n < 64)%N ->
  b64_index (b64_char n) = Some n /\ Ascii.eqb (b64_char n) b64_pad = false.
Proof.
  intros Hn.
  pose proof (proj1 (forallb_forall _ _) b64_table_ok (N.to_nat n)) as H.
  cbv beta zeta in H. rewrite N2Nat.id in H.
  assert (Hin : In (N.to_nat n) (seq 0 64)) by (apply in_seq; lia).
  specialize (H Hin). apply andb_prop in H as [H1 H2].
  destruct (b64_index (b64_char n)) as [m|]; [|discriminate].
  apply N.eqb_eq in H1. subst m. split; [reflexivity|].
  now rewrite negb_true_iff in H2.
Qed.




Lemma b64_group_bounds b0 b1 b2 s0 s1 s2 s3 :
  b64_group b0 b1 b2 = (s0, s1, s2, s3) ->
  (s0 < 64 /\ s1 < 64 /\ s2 < 64 /\ s3 < 64)%N.
Proof.
  unfold b64_group. intros H. injection H as <- <- <- <-.
  repeat split; apply N.mod_lt; discriminate.
Qed.

Lemma byte_of_N_div n (b0 b1 b2 : byte) :
  n = (Byte.to_N b0 * 65536 + Byte.to_N b1 * 256 + Byte.to_N b2)%N ->
  Byte.of_N (n / 65536) = Some b0 /\
  Byte.of_N ((n / 256) mod 256) = Some b1 /\
  Byte.of_N (n mod 256) = Some b2.
Proof.
  intros ->.
  pose proof (Byte.to_N_bounded b0). pose proof (Byte.to_N_bounded b1).
  pose proof (Byte.to_N_bounded b2).
  repeat split; apply Byte.to_of_N_iff; lia.
Qed.

Lemma b64_ungroup_group b0 b1 b2 s0 s1 s2 s3 :
  b64_group b0 b1 b2 = (s0, s1, s2, s3) ->
  b64_ungroup s0 s1 s2 s3 = Some (b0, b1, b2).
Proof.
  unfold b64_group, b64_ungroup. intros H. injection H as <- <- <- <-.
  pose proof (Byte.to_N_bounded b0). pose proof (Byte.to_N_bounded b1).
  pose proof (Byte.to_N_bounded b2).
  set (n := (Byte.to_N b0 * 65536 + Byte.to_N b1 * 256 + Byte.to_N b2)%N).
  assert (Hn : ((((n / 262144) mod 64 * 64 + (n / 4096) mod 64) * 64 +
                 (n / 64) mod 64) * 64 + n mod 64 = n)%N).
  { subst n. lia. }
  cbv zeta. rewrite Hn.
  destruct (byte_of_N_div n b0 b1 b2 eq_refl) as (-> & -> & ->).
  reflexivity.
Qed.

Lemma b64_group_last_zero b0 b1 :
  exists s0 s1 s2, b64_group b0 b1 Byte.x00 = (s0, s1, s2, 0%N).
Proof.
  unfold b64_group. do 3 eexists. f_equal.
  change (Byte.to_N Byte.x00) with 0%N. lia.
Qed.

Lemma b64_group_last_two_zero b0 :
  exists s0 s1, b64_group b0 Byte.x00 Byte.x00 = (s0, s1, 0%N, 0%N).
Proof.
  unfold b64_group. do 2 eexists.
  change (Byte.to_N Byte.x00) with 0%N.
  f_equal; [f_equal|]; lia.
Qed.

Lemma list_ind3 {A} (P : list A -> Prop) :
  P [] -> (forall a, P [a]) -> (forall a b, P [a; b]) ->
  (forall a b c l, P l -> P (a :: b :: c :: l)) ->
  forall l, P l.
Proof.
  intros H0 H1 H2 H3.
  assert (H : forall l, P l /\ (forall a, P (a :: l)) /\ (forall a b, P (a :: b :: l))).
  { induction l as [|x l (IH0 & IH1 & IH2)]; [now auto|].
    split; [apply IH1|]. split; [intros a; apply IH2|].
    intros a b. now apply H3. }
  intros l. apply H.
Qed.

Lemma b64decode_b64encode bs : b64decode (b64encode bs) = Some bs.
Proof.
  induction bs as [|b0|b0 b1|b0 b1 b2 rest IH] using list_ind3.
  - reflexivity.
  - destruct (b64_group_last_two_zero b0) as (s0 & s1 & Hg).
    pose proof (b64_group_bounds _ _ _ _ _ _ _ Hg) as (H0 & H1 & _).
    pose proof (b64_ungroup_group _ _ _ _ _ _ _ Hg) as Hu.
    cbn [b64encode]. rewrite Hg. cbn [b64decode].
    rewrite (proj1 (b64_char_spec s0 H0)), (proj1 (b64_char_spec s1 H1)).
    cbn [mbind option_bind]. rewrite Hu. reflexivity.
  - destruct (b64_group_last_zero b0 b1) as (s0 & s1 & s2 & Hg).
    pose proof (b64_group_bounds _ _ _ _ _ _ _ Hg) as (H0 & H1 & H2 & _).
    pose proof (b64_ungroup_group _ _ _ _ _ _ _ Hg) as Hu.
    cbn [b64encode]. rewrite Hg. cbn [b64decode].
    rewrite (proj1 (b64_char_spec s0 H0)), (proj1 (b64_char_spec s1 H1)),
      (proj1 (b64_char_spec s2 H2)), (proj2 (b64_char_spec s2 H2)).
    cbn [mbind option_bind]. rewrite Hu. reflexivity.
  - destruct (b64_group b0 b1 b2) as [[[s0 s1] s2] s3] eqn:Hg.
    pose proof (b64_group_bounds _ _ _ _ _ _ _ Hg) as (H0 & H1 & H2 & H3).
    pose proof (b64_ungroup_group _ _ _ _ _ _ _ Hg) as Hu.
    cbn [b64encode]. rewrite Hg. cbn [b64decode].
    rewrite (proj1 (b64_char_spec s0 H0)), (proj1 (b64_char_spec s1 H1)),
      (proj1 (b64_char_spec s2 H2)), (proj1 (b64_char_spec s3 H3)),
      (proj2 (b64_char_spec s3 H3)).
    cbn [mbind option_bind]. rewrite Hu, IH. reflexivity.
Qed.

(** *** Substrings *)

Lemma prefix_append (k post : string) : String.prefix k (k +:+ post) = true.
Proof.
  induction k as [|c k IH]; [now destruct post|].
  change (String c k +:+ post) with (String c (k +:+ post)).
  cbn [String.prefix]. destruct (ascii_dec c c) as [_|Hne]; [exact IH | now destruct Hne].
Qed.

Lemma str_in_append (pre k post : string) : str_in k (pre +:+ k +:+ post) = true.
Proof.
  induction pre as [|c pre IH].
  - change (EmptyString +:+ k +:+ post) with (k +:+ post).
    destruct (k +:+ post) eqn:E; cbn [str_in]; rewrite <- E, prefix_append; reflexivity.
  - change (String c pre +:+ k +:+ post) with (String c (pre +:+ k +:+ post)).
    cbn [str_in]. rewrite IH. apply orb_true_r.
Qed.

Lemma str_in_head (k post : string) : str_in k (k +:+ post) = true.
Proof. exact (str_in_append EmptyString k post). Qed.

(** *** sentence counts and templates *)

Lemma sentence_count_of_cases story_length :
  sentence_count_of story_length =
    if String.eqb story_length "short" then 6
    else if String.eqb story_length "long" then 12
    else 8.
Proof.
  unfold sentence_count_of, length_mapping.
  rewrite !lookup_insert, lookup_empty.
  destruct (String.eqb_spec story_length "short") as [->|H1]; [reflexivity|].
  destruct (String.eqb_spec story_length "long") as [->|H2]; [reflexivity|].
  repeat case_decide; try reflexivity; congruence.
Qed.

Lemma fallback_stories_lookup kid_name theme fs :
  fallback_stories kid_name !! theme = Some fs ->
  (theme = "forest" /\ fs = forest_template kid_name) \/
  (theme = "space" /\ fs = space_template kid_name) \/
  (theme = "ocean" /\ fs = ocean_template kid_name) \/
  (theme = "kingdom" /\ fs = kingdom_template kid_name) \/
  (theme = "dinosaur" /\ fs = dinosaur_template kid_name).
Proof.
  unfold fallback_stories. rewrite !lookup_insert, lookup_empty.
  repeat case_decide; intros [= <-]; subst; auto 10.
Qed.

Lemma fallback_stories_lookup_None kid_name theme :
  fallback_stories kid_name !! theme = None <->
  theme ∉ ["forest"; "space"; "ocean"; "kingdom"; "dinosaur"].
Proof.
  unfold fallback_stories. rewrite !lookup_insert, lookup_empty, !not_elem_of_cons.
  split.
  - repeat case_decide; try discriminate. intros _.
    repeat split; try congruence. apply not_elem_of_nil.
  - intros (H1 & H2 & H3 & H4 & H5 & _). repeat case_decide; congruence.
Qed.

Lemma fallback_stories_forest kid_name :
  fallback_stories kid_name !! "forest" = Some (forest_template kid_name).
Proof. apply lookup_insert_eq. Qed.

Lemma template_lengths kid_name theme fs :
  fallback_stories kid_name !! theme = Some fs ->
  length (t_story fs) = 8 /\ length (t_imagePrompts fs) = 4.
Proof.
  intros H. apply fallback_stories_lookup in H.
  destruct H as [[_ ->]|[[_ ->]|[[_ ->]|[[_ ->]|[_ ->]]]]]; split; reflexivity.
Qed.

(** *** The padding loop *)

Lemma append_while_shorter_spec {A} (fuel : nat) (l : list A) (n : nat) (x : A) :
  n - length l <= fuel ->
  append_while_shorter fuel l n x = l ++ replicate (n - length l) x.
Proof.
  revert l. induction fuel as [|fuel IH]; intros l Hfuel.
  - replace (n - length l) with 0 by lia. cbn. now rewrite app_nil_r.
  - cbn [append_while_shorter]. destruct (Nat.ltb_spec (length l) n) as [Hlt|Hge].
    + rewrite IH by (rewrite length_app; cbn; lia).
      rewrite length_app. cbn [length].
      replace (n - length l) with (S (n - (length l + 1))) by lia.
      cbn [replicate]. now rewrite <- app_assoc.
    + replace (n - length l) with 0 by lia. cbn. now rewrite app_nil_r.
Qed.

Lemma append_while_shorter_exit {A} (fuel : nat) (l : list A) (n : nat) (x : A) :
  n - length l <= fuel ->
  (length (append_while_shorter fuel l n x) <? n) = false.
Proof.
  intros H. rewrite append_while_shorter_spec by exact H.
  apply Nat.ltb_ge. rewrite length_app, length_replicate. lia.
Qed.

Lemma shape_to_length {A} (n : nat) (x : A) (l : list A) : length (shape_to n x l) = n.
Proof.
  unfold shape_to. rewrite length_take, length_app, length_replicate. lia.
Qed.

Lemma shape_to_longer {A} (n : nat) (x : A) (l : list A) :
  n <= length l -> shape_to n x l = take n l.
Proof.
  intros H. unfold shape_to. replace (n - length l) with 0 by lia.
  cbn. now rewrite app_nil_r.
Qed.

Lemma shape_to_shorter {A} (n : nat) (x : A) (l : list A) :
  length l <= n -> shape_to n x l = l ++ replicate (n - length l) x.
Proof.
  intros H. unfold shape_to. apply take_ge.
  rewrite length_app, length_replicate. lia.
Qed.

(** *** [create_fallback_story] in closed form *)

Lemma create_fallback_story_spec
    kid_name theme story_type story_length special_ingredients child_description :
  let n := sentence_count_of story_length in
  let selected :=
    match fallback_stories kid_name !! theme with
    | None => "forest"
    | Some _ => theme
    end in
  let fs := default (forest_template kid_name) (fallback_stories kid_name !! theme) in
  fallback_stories kid_name !! selected = Some fs /\
  create_fallback_story kid_name theme story_type story_length special_ingredients
      child_description =
    inr (mkStory (t_title fs) (t_moral fs)
           (shape_to n (filler_sentence kid_name) (t_story fs))
           (shape_to (n / 2) (filler_prompt kid_name selected) (t_imagePrompts fs))
           (replicate (n / 2) None)).
Proof.
  intros n selected fs.
  assert (Hsel : fallback_stories kid_name !! selected = Some fs).
  { subst selected fs. destruct (fallback_stories kid_name !! theme) eqn:E.
    - exact E.
    - apply fallback_stories_forest. }
  split; [exact Hsel|].
  destruct (template_lengths _ _ _ Hsel) as [Hs Hp].
  unfold create_fallback_story. fold n. fold selected. rewrite Hsel.
  clearbody n selected fs. rewrite Hs.
  assert (Himg : forall l : list (option (list byte)),
            match Some l with Some (x :: l') => x :: l' | _ => [] end = l)
    by (now intros [|? ?]).
  destruct (Nat.eqb_spec 8 n) as [<-|Hne]; cbn [negb].
  - unfold Story_init. rewrite Himg, Hp.
    change (8 / 2) with 4.
    rewrite !shape_to_shorter by lia. rewrite Hs, Hp.
    cbn [Nat.sub replicate]. now rewrite !app_nil_r.
  - destruct (Nat.ltb_spec n 8) as [Hlt|Hge].
    + assert (n / 2 <= 4) by lia.
      unfold Story_init. rewrite Himg, length_take, Hp.
      rewrite !shape_to_longer by lia.
      rewrite Nat.min_l by lia. reflexivity.
    + assert (4 <= n / 2) by lia.
      unfold Story_init. rewrite Himg.
      rewrite !append_while_shorter_spec by lia.
      rewrite !shape_to_shorter by lia.
      rewrite length_app, length_replicate, Hp.
      replace (4 + (n / 2 - 4)) with (n / 2) by lia. reflexivity.
Qed.

(** *** The transport form *)

Lemma from_dict_to_dict (s : Story) :
  from_dict (to_dict s) =
    Some (mkStory (title s) (moral s) (story s) (imagePrompts s)
            (map present_image (images s))).
Proof.
  unfold from_dict, to_dict. cbn [d_images d_title d_moral d_story d_imagePrompts].
  assert (H : mapM (fun e : option string =>
                      match e with
                      | Some s0 => b ← b64decode s0; Some (Some b)
                      | None => Some None
                      end)
                (map (fun img => if truthy_bytes img
                                 then Some (b64encode (default [] img)) else None)
                   (images s)) = Some (map present_image (images s))).
  { induction (images s) as [|img imgs IH]; [reflexivity|].
    cbn [map mapM]. rewrite IH. unfold present_image at 1.
    destruct img as [[|b bs]|]; cbn [truthy_bytes]; try reflexivity.
    cbn [default]. rewrite b64decode_b64encode. reflexivity. }
  rewrite H. reflexivity.
Qed.

(** *** The transport form: claims C9 and C10 *)

(** C9, as stated, fails, whatever the decoder: a story whose only image
    is a present but empty blob and the story whose only image is null
    have the same transport form, so no way back can give a null at
    position 0 exactly when there was one before. *)
Lemma C9_counterexample :
  ~ (exists decode : StoryDict -> option Story,
       forall s : Story,
         exists s', decode (to_dict s) = Some s' /\
                    forall i, images s' !! i = Some None <-> images s !! i = Some None).
Proof.
  intros [decode H].
  destruct (H (mkStory "t" "m" ["a"; "b"] ["p"] [Some []])) as (s1 & E1 & H1).
  destruct (H (mkStory "t" "m" ["a"; "b"] ["p"] [None])) as (s2 & E2 & H2).
  change (to_dict (mkStory "t" "m" ["a"; "b"] ["p"] [None]))
    with (to_dict (mkStory "t" "m" ["a"; "b"] ["p"] [Some []])) in E2.
  rewrite E1 in E2. injection E2 as ->.
  pose proof (proj2 (H2 0) eq_refl) as Hnull.
  pose proof (proj1 (H1 0) Hnull) as Hbefore.
  discriminate Hbefore.
Qed.

(** C9, amended: serializing a story with [to_dict] and decoding it back
    always succeeds and preserves the title, the moral, the sentences and
    the image prompts in their order, and the number of images; position
    [i] is null after the round trip if and only if [images[i]] was null or
    a zero-length blob before, and every non-empty blob decodes to the
    original bytes. *)
Theorem C9_round_trip (s : Story) :
  exists s',
    from_dict (to_dict s) = Some s' /\
    title s' = title s /\ moral s' = moral s /\
    story s' = story s /\
    imagePrompts s' = imagePrompts s /\
    length (images s') = length (images s) /\
    (forall i, images s' !! i = Some None <->
               (images s !! i = Some None \/ images s !! i = Some (Some []))) /\
    (forall i b bs, images s !! i = Some (Some (b :: bs)) <->
                    images s' !! i = Some (Some (b :: bs))).
Proof.
  eexists. split; [apply from_dict_to_dict|]. cbn [title moral story imagePrompts images].
  repeat split; try reflexivity.
  - apply length_map.
  - rewrite list_lookup_fmap. destruct (images s !! i) as [[[|b bs]|]|]; cbn; auto; discriminate.
  - intros [H|H]; rewrite list_lookup_fmap, H; reflexivity.
  - intros H. rewrite list_lookup_fmap, H. reflexivity.
  - rewrite list_lookup_fmap.
    destruct (images s !! i) as [[[|b' bs']|]|]; cbn; intros H; try discriminate; exact H.
Qed.

(** C10: a present but zero-length blob at position [i] is serialized to
    null at position [i], and the dictionary is the one obtained when the
    illustration at [i] had failed. *)
Theorem C10_empty_image_is_null (s : Story) (i : nat) :
  images s !! i = Some (Some []) ->
  d_images (to_dict s) !! i = Some None /\
  to_dict s =
    to_dict (mkStory (title s) (moral s) (story s) (imagePrompts s)
               (<[i := None]> (images s))).
Proof.
  intros H. unfold to_dict. cbn [title moral story imagePrompts images d_images].
  split.
  - rewrite list_lookup_fmap, H. reflexivity.
  - f_equal. rewrite list_fmap_insert. symmetry. apply list_insert_id.
    rewrite list_lookup_fmap, H. reflexivity.
Qed.

Lemma C10_witness :
  d_images (to_dict (mkStory "t" "m" ["a"; "b"] ["p"] [Some []])) !! 0 = Some None /\
  to_dict (mkStory "t" "m" ["a"; "b"] ["p"] [Some []]) =
    to_dict (mkStory "t" "m" ["a"; "b"] ["p"] (<[0 := None]> [Some []])).
Proof. exact (C10_empty_image_is_null (mkStory "t" "m" ["a"; "b"] ["p"] [Some []]) 0 eq_refl). Defined.

(** *** The fallback stories: claims C5 to C8 *)

(** C5: whatever the name, theme, type and ingredients, the fallback story
    has 6 sentences for "short", 8 for "medium", 12 for "long" and 8 for
    any other length; it has [len(story) // 2] image prompts and as many
    images, all of them null. *)
Theorem C5_fallback_shape
    (kid_name theme story_type story_length special_ingredients child_description : string) :
  exists s,
    create_fallback_story kid_name theme story_type story_length special_ingredients
      child_description = inr s /\
    length (story s) =
      (if String.eqb story_length "short" then 6
       else if String.eqb story_length "medium" then 8
       else if String.eqb story_length "long" then 12
       else 8) /\
    length (imagePrompts s) = length (story s) / 2 /\
    length (images s) = length (imagePrompts s) /\
    Forall (fun img => img = None) (images s).
Proof.
  destruct (create_fallback_story_spec kid_name theme story_type story_length
              special_ingredients child_description) as [_ ->].
  eexists. split; [reflexivity|]. cbn [story imagePrompts images].
  rewrite !shape_to_length, length_replicate. repeat split.
  - rewrite sentence_count_of_cases.
    destruct (String.eqb_spec story_length "short") as [->|_]; [reflexivity|].
    destruct (String.eqb_spec story_length "medium") as [->|_]; [reflexivity|].
    reflexivity.
  - apply Forall_replicate. reflexivity.
Qed.

(** C6: a theme outside the five templates, "custom" included, gives the
    story of the "forest" theme: the same document as asking for "forest",
    with the title, the moral, the sentences and the image prompts of the
    forest template, cut or filled to the requested length. *)
Theorem C6_unknown_theme_is_forest
    (kid_name theme story_type story_length special_ingredients child_description : string) :
  theme ∉ ["forest"; "space"; "ocean"; "kingdom"; "dinosaur"] ->
  create_fallback_story kid_name theme story_type story_length special_ingredients
      child_description =
    create_fallback_story kid_name "forest" story_type story_length special_ingredients
      child_description /\
  create_fallback_story kid_name theme story_type story_length special_ingredients
      child_description =
    inr (mkStory
           (t_title (forest_template kid_name))
           (t_moral (forest_template kid_name))
           (shape_to (sentence_count_of story_length) (filler_sentence kid_name)
              (t_story (forest_template kid_name)))
           (shape_to (sentence_count_of story_length / 2) (filler_prompt kid_name "forest")
              (t_imagePrompts (forest_template kid_name)))
           (replicate (sentence_count_of story_length / 2) None)).
Proof.
  intros Hnot. apply (proj2 (fallback_stories_lookup_None kid_name theme)) in Hnot.
  destruct (create_fallback_story_spec kid_name theme story_type story_length
              special_ingredients child_description) as [_ Ht].
  destruct (create_fallback_story_spec kid_name "forest" story_type story_length
              special_ingredients child_description) as [_ Hf].
  rewrite Ht, Hf, Hnot, fallback_stories_forest. cbn [default]. split; reflexivity.
Qed.

Lemma C6_witness :
  create_fallback_story "Mia" "custom" "adventure" "long" "a red kite" "" =
    create_fallback_story "Mia" "forest" "adventure" "long" "a red kite" "" /\
  create_fallback_story "Mia" "custom" "adventure" "long" "a red kite" "" =
    inr (mkStory
           (t_title (forest_template "Mia"))
           (t_moral (forest_template "Mia"))
           (shape_to (sentence_count_of "long") (filler_sentence "Mia")
              (t_story (forest_template "Mia")))
           (shape_to (sentence_count_of "long" / 2) (filler_prompt "Mia" "forest")
              (t_imagePrompts (forest_template "Mia")))
           (replicate (sentence_count_of "long" / 2) None)).
Proof.
  apply (C6_unknown_theme_is_forest "Mia" "custom" "adventure" "long" "a red kite" "").
  apply (proj1 (fallback_stories_lookup_None "Mia" "custom")). vm_compute. reflexivity.
Defined.

(** C8: when the required number of sentences is the 8 of the templates,
    the story is returned as the template has it: its 8 sentences and its
    4 image prompts, nothing cut and nothing added. *)
Theorem C8_no_shaping_at_eight
    (kid_name theme story_type story_length special_ingredients child_description : string) :
  sentence_count_of story_length = 8 ->
  let fs := default (forest_template kid_name) (fallback_stories kid_name !! theme) in
  create_fallback_story kid_name theme story_type story_length special_ingredients
      child_description =
    inr (mkStory (t_title fs) (t_moral fs) (t_story fs) (t_imagePrompts fs)
           (replicate 4 None)) /\
  length (t_story fs) = 8 /\ length (t_imagePrompts fs) = 4.
Proof.
  intros Hn fs.
  destruct (create_fallback_story_spec kid_name theme story_type story_length
              special_ingredients child_description) as [Hsel ->].
  fold fs in Hsel |- *. rewrite Hn.
  destruct (template_lengths _ _ _ Hsel) as [Hs Hp].
  change (8 / 2) with 4.
  rewrite !shape_to_shorter by lia. rewrite Hs, Hp. cbn [Nat.sub replicate].
  rewrite !app_nil_r. auto.
Qed.

Lemma C8_witness :
  let fs := default (forest_template "Mia") (fallback_stories "Mia" !! "ocean") in
  create_fallback_story "Mia" "ocean" "bedtime" "medium" "" "" =
    inr (mkStory (t_title fs) (t_moral fs) (t_story fs) (t_imagePrompts fs)
           (replicate 4 None)) /\
  length (t_story fs) = 8 /\ length (t_imagePrompts fs) = 4.
Proof. exact (C8_no_shaping_at_eight "Mia" "ocean" "bedtime" "medium" "" "" eq_refl). Defined.

(** C7, as stated, fails: the fifth sentence of the forest template does
    not mention the child. *)
Lemma C7_counterexample :
  ~ (forall (kid_name theme : string) (fs : Template),
       fallback_stories kid_name !! theme = Some fs ->
       Forall (fun s => str_in kid_name s = true) (t_story fs)).
Proof.
  intros H. specialize (H "Mia" "forest" _ (fallback_stories_forest "Mia")).
  assert (H4 : t_story (forest_template "Mia") !! 4 =
               Some "'Our forest is losing its magic,' explained the wise old owl perched on a branch, 'and you have the kind heart needed to help restore it.'")
    by reflexivity.
  pose proof (Forall_lookup_1 _ _ _ _ H H4) as Hin.
  vm_compute in Hin. discriminate Hin.
Qed.

Ltac names_child := first [apply str_in_head | apply str_in_append].

Local Opaque String.append.

(** C7, amended: for every name and each of the five themes, the name is
    interpolated into the title, into each of the 4 image prompts and into
    every one of the 8 sentences except the fifth of "forest", the second
    of "space" and the fifth and sixth of "dinosaur"; these four sentences
    are the same text whatever the name. *)
Theorem C7_names_the_child (kid_name theme : string) (fs : Template) :
  fallback_stories kid_name !! theme = Some fs ->
  str_in kid_name (t_title fs) = true /\
  length (t_imagePrompts fs) = 4 /\
  Forall (fun p => str_in kid_name p = true) (t_imagePrompts fs) /\
  length (t_story fs) = 8 /\
  (forall i s,
     t_story fs !! i = Some s ->
     (theme, i) ∉ [("forest", 4); ("space", 1); ("dinosaur", 4); ("dinosaur", 5)] ->
     str_in kid_name s = true) /\
  (forall i other fs',
     (theme, i) ∈ [("forest", 4); ("space", 1); ("dinosaur", 4); ("dinosaur", 5)] ->
     fallback_stories other !! theme = Some fs' ->
     t_story fs' !! i = t_story fs !! i).
Proof.
  intros Hfs. pose proof (template_lengths _ _ _ Hfs) as [Hs Hp].
  apply fallback_stories_lookup in Hfs.
  split; [|split; [exact Hp|split; [|split; [exact Hs|split]]]].
  - destruct Hfs as [[_ ->]|[[_ ->]|[[_ ->]|[[_ ->]|[_ ->]]]]]; names_child.
  - destruct Hfs as [[_ ->]|[[_ ->]|[[_ ->]|[[_ ->]|[_ ->]]]]];
      repeat (constructor; [names_child|]); constructor.
  - intros i s Hi Hex.
    destruct Hfs as [[-> ->]|[[-> ->]|[[-> ->]|[[-> ->]|[-> ->]]]]];
      do 8 (destruct i as [|i];
            [injection Hi as <-;
             first [names_child | exfalso; apply Hex; repeat constructor]
            |simpl in Hi]);
      discriminate Hi.
  - intros i other fs' Hin Hfs'. apply fallback_stories_lookup in Hfs'.
    repeat (apply elem_of_cons in Hin as [Hin|Hin];
            [injection Hin as -> ->;
             destruct Hfs as [[? ->]|[[? ->]|[[? ->]|[[? ->]|[? ->]]]]]; try discriminate;
             destruct Hfs' as [[? ->]|[[? ->]|[[? ->]|[[? ->]|[? ->]]]]]; try discriminate;
             reflexivity|]).
    inversion Hin.
Qed.

Local Transparent String.append.

Lemma C7_witness :
  str_in "Mia" (t_title (ocean_template "Mia")) = true /\
  length (t_imagePrompts (ocean_template "Mia")) = 4 /\
  Forall (fun p => str_in "Mia" p = true) (t_imagePrompts (ocean_template "Mia")) /\
  length (t_story (ocean_template "Mia")) = 8 /\
  (forall i s,
     t_story (ocean_template "Mia") !! i = Some s ->
     ("ocean", i) ∉ [("forest", 4); ("space", 1); ("dinosaur", 4); ("dinosaur", 5)] ->
     str_in "Mia" s = true) /\
  (forall i other fs',
     ("ocean", i) ∈ [("forest", 4); ("space", 1); ("dinosaur", 4); ("dinosaur", 5)] ->
     fallback_stories other !! "ocean" = Some fs' ->
     t_story fs' !! i = t_story (ocean_template "Mia") !! i).
Proof.
  apply (C7_names_the_child "Mia" "ocean" (ocean_template "Mia")).
  vm_compute. reflexivity.
Defined.

(** ** Properties of the pipeline *)

Section PipelineProperties.

(** In this section the environment is fixed and the functions of the
    pipeline are read at it. *)
Variable env : Env.t.

Local Abbreviation Image := (Env.Image env).
Local Abbreviation strip := (Env.strip env).
Local Abbreviation json_loads := (Env.json_loads env).
Local Abbreviation API_INITIALIZED := (Env.API_INITIALIZED env).
Local Abbreviation client := (Env.client env).
Local Abbreviation truthy_client := (truthy_client env).
Local Abbreviation generate_content := (generate_content env).
Local Abbreviation photo_attempts := (photo_attempts env).
Local Abbreviation analyze_photo := (analyze_photo env).
Local Abbreviation image_attempts := (image_attempts env).
Local Abbreviation images_loop := (images_loop env).
Local Abbreviation generate_images := (generate_images env).
Local Abbreviation story_operation := (story_operation env).
Local Abbreviation story_attempts := (story_attempts env).
Local Abbreviation generate_story := (generate_story env).
Local Abbreviation process_story_request := (process_story_request env).
Local Abbreviation image_call := (image_call env).
Local Abbreviation photo_call := (photo_call env).
Local Abbreviation photo_answer := (photo_answer env).
Local Abbreviation calls_after := (calls_after env).

(** *** The illustration generator: claim C2 *)

Lemma generate_content_run (backend : nat -> string -> Contents Image -> option (list string) -> exn + Response)
    model contents config n :
  client = Some backend ->
  generate_content model contents config n = (backend n model contents config, S n, []).
Proof. intros H. unfold generate_content. rewrite H. reflexivity. Qed.

Lemma truthy_client_Some :
  truthy_client = true -> exists backend, client = Some backend.
Proof. unfold truthy_client. destruct client as [b|]; [eauto | discriminate]. Qed.

(** One iteration of the loop over the attempts for an image. *)
Lemma image_attempts_step prompt attempt rest images n :
  truthy_client = true ->
  image_attempts prompt (attempt :: rest) images n =
    match image_delivered (image_call prompt n) with
    | Some d => (images ++ [Some d], S n, [])
    | None =>
        if image_quota_failure (image_call prompt n) then (images ++ [None], S n, [])
        else if (attempt <? max_retries - 1)%nat then
          let '(r, n', evs) := image_attempts prompt rest images (S n) in
          (r, n', Backoff Illustration (base_delay * 2 ^ attempt) :: evs)
        else
          image_attempts prompt rest (images ++ [None]) (S n)
    end.
Proof.
  intros Hc. destruct (truthy_client_Some Hc) as [backend Hb].
  unfold image_call. cbn [image_attempts]. unfold mbind, M_bind.
  rewrite (generate_content_run backend) by exact Hb. cbn [fst snd].
  destruct (backend n GEMINI_IMAGE_MODEL (Text (enhanced_prompt prompt))
              (Some ["TEXT"; "IMAGE"])) as [e|response];
    cbn [image_delivered image_quota_failure].
  - destruct (quota_signature e); [reflexivity|].
    destruct (attempt <? max_retries - 1)%nat.
    + unfold backoff, sleep.
      destruct (image_attempts prompt rest images (S n)) as [[r n'] evs]. reflexivity.
    + destruct (image_attempts prompt rest (images ++ [None]) (S n)) as [[r n'] evs].
      reflexivity.
  - destruct (truthy_bytes (image_data_of response)) eqn:Ht.
    + destruct (image_data_of response) as [d|]; [reflexivity|discriminate Ht].
    + destruct (attempt <? max_retries - 1)%nat.
      * unfold backoff, sleep.
        destruct (image_attempts prompt rest images (S n)) as [[r n'] evs]. reflexivity.
      * destruct (image_attempts prompt rest (images ++ [None]) (S n)) as [[r n'] evs].
        reflexivity.
Qed.

Lemma image_delivered_truthy r d : image_delivered r = Some d -> truthy_bytes (Some d) = true.
Proof.
  destruct r as [e|response]; cbn; [discriminate|].
  destruct (truthy_bytes (image_data_of response)) eqn:Ht; [|discriminate].
  intros H. rewrite H in Ht. exact Ht.
Qed.

(** The three attempts for a prompt add exactly one entry to the list. *)
Lemma image_attempts_one_entry prompt images n :
  truthy_client = true ->
  exists img n' evs,
    image_attempts prompt (seq 0 max_retries) images n = (images ++ [img], n', evs) /\
    (img = None \/ truthy_bytes img = true).
Proof.
  intros Hc.
  assert (H2 : forall n, exists img n' evs,
             image_attempts prompt [2] images n = (images ++ [img], n', evs) /\
             (img = None \/ truthy_bytes img = true)).
  { intros m. rewrite image_attempts_step by exact Hc.
    destruct (image_delivered (image_call prompt m)) as [d|] eqn:Hd.
    - apply image_delivered_truthy in Hd. eauto 6.
    - destruct (image_quota_failure (image_call prompt m)); cbn; eauto 6. }
  assert (H1 : forall n, exists img n' evs,
             image_attempts prompt [1; 2] images n = (images ++ [img], n', evs) /\
             (img = None \/ truthy_bytes img = true)).
  { intros m. rewrite image_attempts_step by exact Hc.
    destruct (image_delivered (image_call prompt m)) as [d|] eqn:Hd.
    - apply image_delivered_truthy in Hd. eauto 6.
    - destruct (image_quota_failure (image_call prompt m)); [eauto 6|].
      cbn [max_retries Nat.sub Nat.ltb Nat.leb].
      destruct (H2 (S m)) as (img & n' & evs & -> & Himg). eauto 6. }
  change (seq 0 max_retries) with [0; 1; 2].
  rewrite image_attempts_step by exact Hc.
  destruct (image_delivered (image_call prompt n)) as [d|] eqn:Hd.
  - apply image_delivered_truthy in Hd. eauto 6.
  - destruct (image_quota_failure (image_call prompt n)); [eauto 6|].
    cbn [max_retries Nat.sub Nat.ltb Nat.leb].
    destruct (H1 (S n)) as (img & n' & evs & -> & Himg). eauto 6.
Qed.

Lemma images_loop_shape prompts images n :
  truthy_client = true ->
  exists new n' evs,
    images_loop prompts images n = (images ++ new, n', evs) /\
    length new = length prompts /\
    Forall (fun img => img = None \/ truthy_bytes img = true) new.
Proof.
  intros Hc. revert images n.
  induction prompts as [|prompt rest IH]; intros images n.
  - exists [], n, []. cbn. rewrite app_nil_r. auto.
  - cbn [images_loop]. unfold mbind, M_bind, sleep.
    destruct (image_attempts_one_entry prompt images n Hc) as (img & n1 & evs1 & -> & Himg).
    destruct (IH (images ++ [img]) n1) as (new & n2 & evs2 & -> & Hlen & Hall).
    exists (img :: new), n2, (evs1 ++ [Pause 1] ++ evs2).
    rewrite <- app_assoc. cbn [app length]. split; [reflexivity|].
    split; [now rewrite Hlen | now constructor].
Qed.

Lemma image_soft_failure_inv r :
  image_soft_failure r = true ->
  image_delivered r = None /\ image_quota_failure r = false.
Proof.
  destruct r as [e|response]; cbn.
  - intros H. now apply negb_true_iff in H.
  - intros H. apply negb_true_iff in H. now rewrite H.
Qed.

Lemma image_quota_failure_inv r :
  image_quota_failure r = true -> image_delivered r = None.
Proof. destruct r; [reflexivity | discriminate]. Qed.

(** Attempts that fail softly are each followed by their backoff; an
    attempt with a quota signature ends the loop with a null entry. *)
Lemma image_attempts_quota prompt images a :
  truthy_client = true ->
  forall k n,
    k + a < max_retries ->
    (forall j, j < a -> image_soft_failure (image_call prompt (n + j)) = true) ->
    image_quota_failure (image_call prompt (n + a)) = true ->
    image_attempts prompt (seq k (max_retries - k)) images n =
      (images ++ [None], n + a + 1,
       map (fun j => Backoff Illustration (base_delay * 2 ^ j)) (seq k a)).
Proof.
  intros Hc. induction a as [|a IH]; intros k n Hk Hsoft Hquota.
  - replace (max_retries - k) with (S (max_retries - S k)) by lia.
    cbn [seq]. rewrite image_attempts_step by exact Hc.
    rewrite Nat.add_0_r in Hquota.
    rewrite (image_quota_failure_inv _ Hquota), Hquota.
    replace (n + 0 + 1) with (S n) by lia. reflexivity.
  - replace (max_retries - k) with (S (max_retries - S k)) by lia.
    cbn [seq]. rewrite image_attempts_step by exact Hc.
    destruct (image_soft_failure_inv _ (Hsoft 0 ltac:(lia))) as [Hd Hq].
    rewrite Nat.add_0_r in Hd, Hq. rewrite Hd, Hq.
    replace (k <? max_retries - 1)%nat with true
      by (symmetry; apply Nat.ltb_lt; lia).
    rewrite (IH (S k) (S n)).
    + replace (S n + a + 1) with (n + S a + 1) by lia. reflexivity.
    + lia.
    + intros j Hj. replace (S n + j) with (n + S j) by lia. apply Hsoft. lia.
    + replace (S n + a) with (n + S a) by lia. exact Hquota.
Qed.

Lemma image_attempts_quota_first prompt images a n :
  truthy_client = true ->
  a < max_retries ->
  (forall j, j < a -> image_soft_failure (image_call prompt (n + j)) = true) ->
  image_quota_failure (image_call prompt (n + a)) = true ->
  image_attempts prompt (seq 0 max_retries) images n =
    (images ++ [None], n + a + 1,
     map (fun j => Backoff Illustration (base_delay * 2 ^ j)) (seq 0 a)).
Proof. intros Hc Ha. exact (image_attempts_quota prompt images a Hc 0 n Ha). Qed.

Lemma image_attempts_delivers prompt images n d :
  truthy_client = true ->
  image_delivered (image_call prompt n) = Some d ->
  image_attempts prompt (seq 0 max_retries) images n = (images ++ [Some d], S n, []).
Proof.
  intros Hc Hd. change (seq 0 max_retries) with [0; 1; 2].
  rewrite image_attempts_step by exact Hc. now rewrite Hd.
Qed.

(** The entries a loop adds do not depend on the entries already there. *)
Lemma image_attempts_acc prompt attempts images n :
  truthy_client = true ->
  image_attempts prompt attempts images n =
    let '(new, n', evs) := image_attempts prompt attempts [] n in
    (images ++ new, n', evs).
Proof.
  intros Hc. revert images n.
  induction attempts as [|attempt rest IH]; intros images n.
  - cbn. now rewrite app_nil_r.
  - rewrite !(image_attempts_step prompt attempt rest) by exact Hc.
    destruct (image_delivered (image_call prompt n)); [reflexivity|].
    destruct (image_quota_failure (image_call prompt n)); [reflexivity|].
    destruct (attempt <? max_retries - 1)%nat.
    + rewrite (IH images). destruct (image_attempts prompt rest [] (S n)) as [[r n'] evs].
      reflexivity.
    + rewrite (IH (images ++ [None])), (IH ([] ++ [None])).
      destruct (image_attempts prompt rest [] (S n)) as [[r n'] evs].
      now rewrite <- app_assoc.
Qed.

Lemma images_loop_acc prompts images n :
  truthy_client = true ->
  images_loop prompts images n =
    let '(new, n', evs) := images_loop prompts [] n in
    (images ++ new, n', evs).
Proof.
  intros Hc. revert images n.
  induction prompts as [|prompt rest IH]; intros images n.
  - cbn. now rewrite app_nil_r.
  - cbn [images_loop]. unfold mbind, M_bind, sleep.
    rewrite (image_attempts_acc prompt _ images) by exact Hc.
    destruct (image_attempts prompt (seq 0 max_retries) [] n) as [[new1 n1] evs1].
    rewrite (IH (images ++ new1)), (IH new1).
    destruct (images_loop rest [] n1) as [[new2 n2] evs2].
    now rewrite <- app_assoc.
Qed.

Lemma images_loop_app before after images n :
  images_loop (before ++ after) images n =
    let '(images1, n1, evs1) := images_loop before images n in
    let '(images2, n2, evs2) := images_loop after images1 n1 in
    (images2, n2, evs1 ++ evs2).
Proof.
  revert images n. induction before as [|prompt rest IH]; intros images n.
  - cbn. destruct (images_loop after images n) as [[i2 n2] evs2]. reflexivity.
  - cbn [app images_loop]. unfold mbind, M_bind, sleep.
    destruct (image_attempts prompt (seq 0 max_retries) images n) as [[i1 n1] evs1].
    rewrite IH.
    destruct (images_loop rest i1 n1) as [[i2 n2] evs2].
    destruct (images_loop after i2 n2) as [[i3 n3] evs3].
    now rewrite <- !app_assoc.
Qed.

Lemma generate_images_ready prompts story_context :
  API_INITIALIZED = true -> truthy_client = true ->
  generate_images prompts story_context = images_loop prompts [].
Proof. intros Ha Hc. unfold generate_images. now rewrite Ha, Hc. Qed.

(** C2: for every list of image prompts, [generate_images] returns a list
    of the same length whose entries are null or (non-empty) image data.
    When an attempt for a prompt fails with a quota signature, the attempts
    before it having failed otherwise, the entry at the position of that
    prompt is null, no further attempt is made for it and the prompts after
    it are processed as usual.  For four prompts of which the second fails
    with a quota signature and the others deliver an image, the result is
    [img; null; img; img]. *)
Theorem C2_generate_images (prompts : list string) (story_context : string) (n : nat) :
  (length (generate_images prompts story_context n).1.1 = length prompts /\
   Forall (fun img => img = None \/ truthy_bytes img = true)
     (generate_images prompts story_context n).1.1) /\
  (forall before prompt after a,
     prompts = before ++ prompt :: after ->
     API_INITIALIZED = true -> truthy_client = true ->
     a < max_retries ->
     let n1 := (generate_images before story_context n).1.2 in
     (forall j, j < a -> image_soft_failure (image_call prompt (n1 + j)) = true) ->
     image_quota_failure (image_call prompt (n1 + a)) = true ->
     let '(images1, _, evs1) := generate_images before story_context n in
     let '(images2, n2, evs2) := generate_images after story_context (n1 + a + 1) in
     generate_images prompts story_context n =
       (images1 ++ None :: images2, n2,
        evs1 ++ map (fun j => Backoff Illustration (base_delay * 2 ^ j)) (seq 0 a)
             ++ Pause 1 :: evs2) /\
     length images1 = length before) /\
  (forall p1 p2 p3 p4 d1 d3 d4,
     prompts = [p1; p2; p3; p4] ->
     API_INITIALIZED = true -> truthy_client = true ->
     image_delivered (image_call p1 n) = Some d1 ->
     image_quota_failure (image_call p2 (n + 1)) = true ->
     image_delivered (image_call p3 (n + 2)) = Some d3 ->
     image_delivered (image_call p4 (n + 3)) = Some d4 ->
     (generate_images prompts story_context n).1.1 = [Some d1; None; Some d3; Some d4]).
Proof.
  split; [|split].
  - unfold generate_images.
    destruct (negb API_INITIALIZED || negb truthy_client) eqn:Hguard.
    + cbn [fst mret M_ret]. rewrite length_replicate. split; [reflexivity|].
      apply Forall_replicate. now left.
    + apply orb_false_elim in Hguard as [_ Hc]. apply negb_false_iff in Hc.
      destruct (images_loop_shape prompts [] n Hc) as (new & n' & evs & -> & Hlen & Hall).
      cbn [fst app]. auto.
  - intros before prompt after a -> Ha Hc Hlt n1 Hsoft Hquota.
    subst n1. rewrite !generate_images_ready in * by assumption.
    rewrite images_loop_app.
    destruct (images_loop_shape before [] n Hc) as (images1 & n1 & evs1 & E1 & Hlen & _).
    rewrite E1 in *. cbn [app fst snd] in *.
    cbn [images_loop]. unfold mbind at 1, M_bind at 1.
    rewrite (image_attempts_quota_first prompt images1 a n1 Hc) by assumption.
    unfold mbind at 1, M_bind at 1, sleep.
    rewrite (images_loop_acc after (images1 ++ [None])) by exact Hc.
    destruct (images_loop after [] (n1 + a + 1)) as [[images2 n2] evs2].
    rewrite <- !app_assoc. cbn [app]. auto.
  - intros p1 p2 p3 p4 d1 d3 d4 -> Ha Hc H1 H2 H3 H4.
    rewrite generate_images_ready by assumption.
    replace (n + 1) with (S n + 0) in H2 by lia.
    replace (n + 2) with (S (S n)) in H3 by lia.
    replace (n + 3) with (S (S (S n))) in H4 by lia.
    cbn [images_loop]. unfold mbind, M_bind, sleep.
    rewrite (image_attempts_delivers p1 [] n d1 Hc H1).
    rewrite (image_attempts_quota_first p2 _ 0 (S n) Hc) by (assumption || (unfold max_retries; lia) || (intros; lia)).
    replace (S n + 0 + 1) with (S (S n)) by lia.
    rewrite (image_attempts_delivers p3 _ _ d3 Hc H3).
    rewrite (image_attempts_delivers p4 _ _ d4 Hc H4).
    reflexivity.
Qed.

(** *** The events of the illustration generator *)

Lemma backoffs_of_app stage evs1 evs2 :
  backoffs_of stage (evs1 ++ evs2) = backoffs_of stage evs1 ++ backoffs_of stage evs2.
Proof. apply omap_app. Qed.

Lemma backoffs_of_narrative_cons seconds evs :
  backoffs_of Narrative (Backoff Narrative seconds :: evs) =
    seconds :: backoffs_of Narrative evs.
Proof. reflexivity. Qed.

Lemma backoffs_of_illustration_events evs :
  Forall (fun e => illustration_event e = true) evs ->
  backoffs_of Narrative evs = [].
Proof.
  induction 1 as [|e evs He _ IH]; [reflexivity|].
  destruct e as [[| |] d|d]; try discriminate He; exact IH.
Qed.

Lemma image_attempts_events prompt attempts images n :
  truthy_client = true ->
  Forall (fun e => illustration_event e = true) (image_attempts prompt attempts images n).2.
Proof.
  intros Hc. revert images n.
  induction attempts as [|attempt rest IH]; intros images n; [constructor|].
  rewrite image_attempts_step by exact Hc.
  destruct (image_delivered (image_call prompt n)); [constructor|].
  destruct (image_quota_failure (image_call prompt n)); [constructor|].
  destruct (attempt <? max_retries - 1)%nat.
  - specialize (IH images (S n)).
    destruct (image_attempts prompt rest images (S n)) as [[r n'] evs].
    constructor; [reflexivity | exact IH].
  - apply IH.
Qed.

Lemma images_loop_events prompts images n :
  truthy_client = true ->
  Forall (fun e => illustration_event e = true) (images_loop prompts images n).2.
Proof.
  intros Hc. revert images n.
  induction prompts as [|prompt rest IH]; intros images n; [constructor|].
  cbn [images_loop]. unfold mbind, M_bind, sleep.
  pose proof (image_attempts_events prompt (seq 0 max_retries) images n Hc) as H1.
  destruct (image_attempts prompt (seq 0 max_retries) images n) as [[i1 n1] evs1].
  specialize (IH i1 n1).
  destruct (images_loop rest i1 n1) as [[i2 n2] evs2].
  cbn [snd] in *. apply Forall_app. split; [exact H1|].
  constructor; [reflexivity | exact IH].
Qed.

Lemma generate_images_events prompts story_context n :
  Forall (fun e => illustration_event e = true) (generate_images prompts story_context n).2.
Proof.
  unfold generate_images.
  destruct (negb API_INITIALIZED || negb truthy_client) eqn:Hguard; [constructor|].
  apply orb_false_elim in Hguard as [_ Hc]. apply negb_false_iff in Hc.
  now apply images_loop_events.
Qed.

(** *** The narrative generator *)

Lemma story_operation_events prompt n :
  backoffs_of Narrative (story_operation prompt n).2 = [].
Proof.
  apply backoffs_of_illustration_events.
  unfold story_operation, mbind, M_bind.
  destruct (generate_content GEMINI_TEXT_MODEL (Text prompt) None n) as [[[e|response] n1] evs1] eqn:Hcall.
  all: assert (evs1 = []) as ->
    by (unfold generate_content in Hcall; destruct client; injection Hcall as _ _ <-;
        reflexivity).
  - constructor.
  - destruct (negb (truthy_text (text response))); [constructor|].
    match goal with |- context [json_loads ?t] => destruct (json_loads t) as [e|story_data] end;
      [constructor|].
    destruct (sd_imagePrompts story_data) as [prompts|]; [|constructor].
    destruct (sd_story story_data) as [sentences|]; [|constructor].
    cbn [subscript].
    pose proof (generate_images_events prompts (String.concat " " sentences) n1) as Hev.
    destruct (generate_images prompts (String.concat " " sentences) n1) as [[imgs n2] evs2].
    cbn [snd] in Hev.
    destruct (sd_title story_data); [destruct (sd_moral story_data)|];
      cbn [app snd mret M_ret subscript]; rewrite app_nil_r; exact Hev.
Qed.

Lemma quota_signature_no_content :
  quota_signature "Failed to generate story content" = false.
Proof. vm_compute. reflexivity. Qed.

(** One iteration of the retry loop of the narrative generator. *)
Lemma story_attempts_step fallback prompt attempt rest n :
  story_attempts fallback prompt (attempt :: rest) n =
    let '(r, n1, evs1) := story_operation prompt n in
    match r with
    | OpReturn s => (Returned s, n1, evs1)
    | OpEmpty =>
        if (attempt <? max_retries - 1)%nat then
          let '(x, n2, evs2) := story_attempts fallback prompt rest n1 in
          (x, n2, evs1 ++ Backoff Narrative (base_delay * 2 ^ attempt) :: evs2)
        else
          (Raised ("Failed to generate story after 3 attempts: Failed to generate story content"),
           n1, evs1)
    | OpRaise e =>
        if quota_signature e then
          (match fallback with
           | inr s => Returned s
           | inl e' => Raised e'
           end, n1, evs1)
        else if (attempt <? max_retries - 1)%nat then
          let '(x, n2, evs2) := story_attempts fallback prompt rest n1 in
          (x, n2, evs1 ++ Backoff Narrative (base_delay * 2 ^ attempt) :: evs2)
        else
          (Raised ("Failed to generate story after 3 attempts: " +:+ e), n1, evs1)
    end.
Proof.
  cbn [story_attempts]. unfold mbind at 1, M_bind at 1.
  destruct (story_operation prompt n) as [[[s| |e] n1] evs1].
  - unfold mret, M_ret. now rewrite app_nil_r.
  - destruct (attempt <? max_retries - 1)%nat.
    + unfold mbind, M_bind, backoff, sleep.
      destruct (story_attempts fallback prompt rest n1) as [[x n2] evs2]. reflexivity.
    + rewrite quota_signature_no_content. unfold mret, M_ret. now rewrite app_nil_r.
  - destruct (quota_signature e); [unfold mret, M_ret; now rewrite app_nil_r|].
    destruct (attempt <? max_retries - 1)%nat.
    + unfold mbind, M_bind, backoff, sleep.
      destruct (story_attempts fallback prompt rest n1) as [[x n2] evs2]. reflexivity.
    + unfold mret, M_ret. now rewrite app_nil_r.
Qed.

Lemma calls_after_S prompt k n :
  calls_after prompt (S k) n = (story_operation prompt (calls_after prompt k n)).1.2.
Proof.
  revert n. induction k as [|k IH]; intros n; [reflexivity|].
  change (calls_after prompt (S (S k)) n)
    with (calls_after prompt (S k) (story_operation prompt n).1.2).
  rewrite IH. reflexivity.
Qed.

(** [k] iterations that fail without a quota signature: each is followed by
    the backoff of its attempt, and the loop goes on with the next
    attempt. *)
Lemma story_attempts_retries fallback prompt k :
  forall a n,
    a + k < max_retries ->
    (forall i, i < k ->
       failed_without_quota (story_operation prompt (calls_after prompt i n)).1.1 = true) ->
    exists evs,
      backoffs_of Narrative evs = map (fun j => base_delay * 2 ^ j) (seq a k) /\
      story_attempts fallback prompt (seq a (max_retries - a)) n =
        let '(x, n', evs') :=
          story_attempts fallback prompt (seq (a + k) (max_retries - (a + k)))
            (calls_after prompt k n) in
        (x, n', evs ++ evs').
Proof.
  induction k as [|k IH]; intros a n Hk Hfail.
  - exists []. split; [reflexivity|]. rewrite Nat.add_0_r. cbn [calls_after app].
    now destruct (story_attempts fallback prompt (seq a (max_retries - a)) n) as [[x n'] evs'].
  - replace (max_retries - a) with (S (max_retries - S a)) by lia.
    cbn [seq]. rewrite story_attempts_step.
    pose proof (Hfail 0 ltac:(lia)) as H0. cbn [calls_after] in H0.
    pose proof (story_operation_events prompt n) as Hev.
    destruct (IH (S a) (story_operation prompt n).1.2) as (evs & Hevs & Hrun).
    { lia. }
    { intros i Hi. apply (Hfail (S i)). lia. }
    replace (a + S k) with (S a + k) by lia.
    change (calls_after prompt (S k) n)
      with (calls_after prompt k (story_operation prompt n).1.2).
    destruct (story_operation prompt n) as [[r n1] evs1]. cbn [fst snd] in *.
    replace (a <? max_retries - 1)%nat with true by (symmetry; apply Nat.ltb_lt; lia).
    exists (evs1 ++ Backoff Narrative (base_delay * 2 ^ a) :: evs). split.
    + rewrite backoffs_of_app, Hev, backoffs_of_narrative_cons, Hevs. reflexivity.
    + destruct r as [s| |e]; [discriminate H0| |].
      * rewrite Hrun.
        match goal with
        | |- context [story_attempts fallback prompt ?l ?m] =>
            destruct (story_attempts fallback prompt l m) as [[x n'] evs']
        end.
        now rewrite <- app_assoc.
      * cbn [failed_without_quota] in H0. apply negb_true_iff in H0. rewrite H0, Hrun.
        match goal with
        | |- context [story_attempts fallback prompt ?l ?m] =>
            destruct (story_attempts fallback prompt l m) as [[x n'] evs']
        end.
        now rewrite <- app_assoc.
Qed.

Lemma create_fallback_story_total
    kid_name theme story_type story_length special_ingredients child_description :
  exists s,
    create_fallback_story kid_name theme story_type story_length special_ingredients
      child_description = inr s.
Proof.
  destruct (create_fallback_story_spec kid_name theme story_type story_length
              special_ingredients child_description) as [_ ->]. eauto.
Qed.

(** The description is not used by the fallback story. *)
Lemma create_fallback_story_description
    kid_name theme story_type story_length special_ingredients d1 d2 :
  create_fallback_story kid_name theme story_type story_length special_ingredients d1 =
  create_fallback_story kid_name theme story_type story_length special_ingredients d2.
Proof. reflexivity. Qed.

Lemma generate_story_run
    kid_name age_level theme story_type story_length special_ingredients child_description n :
  API_INITIALIZED = true -> truthy_client = true ->
  generate_story kid_name age_level theme story_type story_length special_ingredients
      child_description n =
    let fallback :=
      create_fallback_story kid_name theme story_type story_length special_ingredients
        child_description in
    let '(r, n', evs) :=
      story_attempts fallback
        (generate_story_prompt kid_name age_level theme story_type story_length
           special_ingredients child_description)
        (seq 0 max_retries) n in
    match r with
    | Returned s => (inr (Some s), n', evs)
    | Fallthrough => (inr None, n', evs)
    | Raised e =>
        if quota_signature e then
          (match fallback with
           | inr s => inr (Some s)
           | inl e' => inl e'
           end, n', evs)
        else (inl e, n', evs)
    end.
Proof.
  intros Ha Hc. unfold generate_story. rewrite Ha, Hc. cbn [negb orb].
  unfold mbind, M_bind. cbv zeta.
  destruct (story_attempts _ _ _ n) as [[[s|e|] n'] evs].
  - unfold mret, M_ret. now rewrite app_nil_r.
  - destruct (quota_signature e); unfold mret, M_ret; now rewrite app_nil_r.
  - unfold mret, M_ret. now rewrite app_nil_r.
Qed.

(** The loop is never left without a [return] or a [raise]. *)
Lemma story_attempts_no_fallthrough fallback prompt n :
  (story_attempts fallback prompt (seq 0 max_retries) n).1.1 <> Fallthrough.
Proof.
  change (seq 0 max_retries) with [0; 1; 2].
  rewrite story_attempts_step.
  destruct (story_operation prompt n) as [[r0 n0] evs0].
  assert (H2 : forall m, (story_attempts fallback prompt [2] m).1.1 <> Fallthrough).
  { intros m. rewrite story_attempts_step.
    destruct (story_operation prompt m) as [[[s| |e] n1] evs1]; cbn; try discriminate.
    destruct (quota_signature e); [destruct fallback|]; discriminate. }
  assert (H1 : forall m, (story_attempts fallback prompt [1; 2] m).1.1 <> Fallthrough).
  { intros m. rewrite story_attempts_step.
    destruct (story_operation prompt m) as [[[s| |e] n1] evs1]; cbn [Nat.ltb Nat.leb max_retries Nat.sub].
    - discriminate.
    - specialize (H2 n1). now destruct (story_attempts fallback prompt [2] n1) as [[x n2] evs2].
    - destruct (quota_signature e); [destruct fallback; discriminate|].
      specialize (H2 n1). now destruct (story_attempts fallback prompt [2] n1) as [[x n2] evs2]. }
  destruct r0 as [s| |e]; cbn [Nat.ltb Nat.leb max_retries Nat.sub].
  - discriminate.
  - specialize (H1 n0). now destruct (story_attempts fallback prompt [1; 2] n0) as [[x n2] evs2].
  - destruct (quota_signature e); [destruct fallback; discriminate|].
    specialize (H1 n0). now destruct (story_attempts fallback prompt [1; 2] n0) as [[x n2] evs2].
Qed.

(** Soft failures of the image request, then an image. *)
Lemma image_attempts_retries prompt images a d :
  truthy_client = true ->
  forall k n,
    k + a < max_retries ->
    (forall j, j < a -> image_soft_failure (image_call prompt (n + j)) = true) ->
    image_delivered (image_call prompt (n + a)) = Some d ->
    image_attempts prompt (seq k (max_retries - k)) images n =
      (images ++ [Some d], n + a + 1,
       map (fun j => Backoff Illustration (base_delay * 2 ^ j)) (seq k a)).
Proof.
  intros Hc. induction a as [|a IH]; intros k n Hk Hsoft Hd.
  - replace (max_retries - k) with (S (max_retries - S k)) by lia.
    cbn [seq]. rewrite image_attempts_step by exact Hc.
    rewrite Nat.add_0_r in Hd. rewrite Hd.
    replace (n + 0 + 1) with (S n) by lia. reflexivity.
  - replace (max_retries - k) with (S (max_retries - S k)) by lia.
    cbn [seq]. rewrite image_attempts_step by exact Hc.
    destruct (image_soft_failure_inv _ (Hsoft 0 ltac:(lia))) as [Hd0 Hq0].
    rewrite Nat.add_0_r in Hd0, Hq0. rewrite Hd0, Hq0.
    replace (k <? max_retries - 1)%nat with true
      by (symmetry; apply Nat.ltb_lt; lia).
    rewrite (IH (S k) (S n)).
    + replace (S n + a + 1) with (n + S a + 1) by lia. reflexivity.
    + lia.
    + intros j Hj. replace (S n + j) with (n + S j) by lia. apply Hsoft. lia.
    + replace (S n + a) with (n + S a) by lia. exact Hd.
Qed.

(** One iteration of the retry loop of the photo analysis. *)
Lemma photo_attempts_step contents attempt rest n :
  truthy_client = true ->
  photo_attempts contents (attempt :: rest) n =
    match photo_answer (photo_call contents n) with
    | Some description => (description, S n, [])
    | None =>
        if photo_soft_failure (photo_call contents n) then
          if (attempt <? max_retries - 1)%nat then
            let '(r, n', evs) := photo_attempts contents rest (S n) in
            (r, n', Backoff Photo (base_delay * 2 ^ attempt) :: evs)
          else photo_attempts contents rest (S n)
        else (default_description, S n, [])
    end.
Proof.
  intros Hc. destruct (truthy_client_Some Hc) as [backend Hb].
  unfold photo_call. cbn [photo_attempts]. cbv zeta. unfold mbind, M_bind.
  rewrite (generate_content_run backend) by exact Hb. cbn [fst snd].
  destruct (backend n GEMINI_VISION_MODEL contents None) as [e|response];
    cbn [photo_answer photo_soft_failure].
  - destruct (quota_signature e); [reflexivity|]. cbn [negb].
    destruct (attempt <? max_retries - 1)%nat.
    + unfold backoff, sleep.
      destruct (photo_attempts contents rest (S n)) as [[r n'] evs]. reflexivity.
    + unfold mret, M_ret.
      destruct (photo_attempts contents rest (S n)) as [[r n'] evs]. reflexivity.
  - destruct (truthy_text (text response)); [reflexivity|]. cbn [negb].
    destruct (attempt <? max_retries - 1)%nat.
    + unfold backoff, sleep.
      destruct (photo_attempts contents rest (S n)) as [[r n'] evs]. reflexivity.
    + unfold mret, M_ret.
      destruct (photo_attempts contents rest (S n)) as [[r n'] evs]. reflexivity.
Qed.

Lemma photo_soft_failure_inv r :
  photo_soft_failure r = true -> photo_answer r = None.
Proof.
  destruct r as [e|response]; cbn; [reflexivity|].
  intros H. apply negb_true_iff in H. now rewrite H.
Qed.

(** Soft failures of the photo request, then a description. *)
Lemma photo_attempts_retries contents a description :
  truthy_client = true ->
  forall k n,
    k + a < max_retries ->
    (forall j, j < a -> photo_soft_failure (photo_call contents (n + j)) = true) ->
    photo_answer (photo_call contents (n + a)) = Some description ->
    photo_attempts contents (seq k (max_retries - k)) n =
      (description, n + a + 1,
       map (fun j => Backoff Photo (base_delay * 2 ^ j)) (seq k a)).
Proof.
  intros Hc. induction a as [|a IH]; intros k n Hk Hsoft Hd.
  - replace (max_retries - k) with (S (max_retries - S k)) by lia.
    cbn [seq]. rewrite photo_attempts_step by exact Hc.
    rewrite Nat.add_0_r in Hd. rewrite Hd.
    replace (n + 0 + 1) with (S n) by lia. reflexivity.
  - replace (max_retries - k) with (S (max_retries - S k)) by lia.
    cbn [seq]. rewrite photo_attempts_step by exact Hc.
    pose proof (Hsoft 0 ltac:(lia)) as H0. rewrite Nat.add_0_r in H0.
    rewrite (photo_soft_failure_inv _ H0), H0.
    replace (k <? max_retries - 1)%nat with true
      by (symmetry; apply Nat.ltb_lt; lia).
    rewrite (IH (S k) (S n)).
    + replace (S n + a + 1) with (n + S a + 1) by lia. reflexivity.
    + lia.
    + intros j Hj. replace (S n + j) with (n + S j) by lia. apply Hsoft. lia.
    + replace (S n + a) with (n + S a) by lia. exact Hd.
Qed.

(** *** The retry policy: claims C3 and C4 *)

(** C4: with 3 attempts and a base delay of 2, when the operation of a
    retry loop fails [k < 3] times without a quota signature and then
    succeeds, the result is the value of the successful run and exactly [k]
    backoff sleeps of that loop occur, of 2 * 2^0, ..., 2 * 2^(k-1) seconds
    in this order.  This holds for the narrative generator, for the photo
    analysis and for each illustration. *)
Theorem C4_retries_then_success (k : nat) :
  k < max_retries ->
  (forall kid_name age_level theme story_type story_length special_ingredients
          child_description n s,
     let prompt :=
       generate_story_prompt kid_name age_level theme story_type story_length
         special_ingredients child_description in
     API_INITIALIZED = true -> truthy_client = true ->
     (forall i, i < k ->
        failed_without_quota (story_operation prompt (calls_after prompt i n)).1.1 = true) ->
     (story_operation prompt (calls_after prompt k n)).1.1 = OpReturn s ->
     exists evs,
       generate_story kid_name age_level theme story_type story_length special_ingredients
           child_description n =
         (inr (Some s), (story_operation prompt (calls_after prompt k n)).1.2, evs) /\
       backoffs_of Narrative evs = map (fun i => base_delay * 2 ^ i) (seq 0 k) /\
       length (backoffs_of Narrative evs) = k) /\
  (forall contents n description,
     truthy_client = true ->
     (forall j, j < k -> photo_soft_failure (photo_call contents (n + j)) = true) ->
     photo_answer (photo_call contents (n + k)) = Some description ->
     photo_attempts contents (seq 0 max_retries) n =
       (description, n + k + 1,
        map (fun i => Backoff Photo (base_delay * 2 ^ i)) (seq 0 k))) /\
  (forall prompt images n d,
     truthy_client = true ->
     (forall j, j < k -> image_soft_failure (image_call prompt (n + j)) = true) ->
     image_delivered (image_call prompt (n + k)) = Some d ->
     image_attempts prompt (seq 0 max_retries) images n =
       (images ++ [Some d], n + k + 1,
        map (fun i => Backoff Illustration (base_delay * 2 ^ i)) (seq 0 k))) /\
  max_retries = 3 /\ base_delay = 2.
Proof.
  intros Hk. split; [|split; [|split; [|split; reflexivity]]].
  - intros kid_name age_level theme story_type story_length special_ingredients
      child_description n s prompt Ha Hc Hfail Hok.
    rewrite generate_story_run by assumption. fold prompt. cbv zeta.
    set (fallback := create_fallback_story _ _ _ _ _ _).
    destruct (story_attempts_retries fallback prompt k 0 n Hk Hfail) as (evs & Hevs & Hrun).
    change (max_retries - 0) with max_retries in Hrun. rewrite Hrun. cbn [Nat.add].
    replace (max_retries - k) with (S (max_retries - S k)) by lia.
    cbn [seq]. rewrite story_attempts_step.
    pose proof (story_operation_events prompt (calls_after prompt k n)) as Hev.
    destruct (story_operation prompt (calls_after prompt k n)) as [[r n1] evs1].
    cbn [fst snd] in *. subst r.
    exists (evs ++ evs1). split; [reflexivity|].
    rewrite backoffs_of_app, Hev, app_nil_r, Hevs.
    rewrite length_map, length_seq. auto.
  - intros contents n description Hc Hsoft Hd.
    exact (photo_attempts_retries contents k description Hc 0 n Hk Hsoft Hd).
  - intros prompt images n d Hc Hsoft Hd.
    exact (image_attempts_retries prompt images k d Hc 0 n Hk Hsoft Hd).
Qed.

Lemma lower_append (s1 s2 : string) : lower (s1 +:+ s2) = lower s1 +:+ lower s2.
Proof.
  induction s1 as [|c s1 IH]; [reflexivity|].
  change (String c s1 +:+ s2) with (String c (s1 +:+ s2)).
  cbn [lower]. rewrite IH. reflexivity.
Qed.

Lemma photo_attempts_quota contents attempt rest n e :
  truthy_client = true ->
  (generate_content GEMINI_VISION_MODEL contents None n).1.1 = inl e ->
  quota_signature e = true ->
  photo_attempts contents (attempt :: rest) n = (default_description, S n, []).
Proof.
  intros Hc He Hq. destruct (truthy_client_Some Hc) as [backend Hb].
  rewrite (generate_content_run backend) in He by exact Hb. cbn [fst] in He.
  cbn [photo_attempts]. cbv zeta. unfold mbind, M_bind.
  rewrite (generate_content_run backend) by exact Hb.
  rewrite He, Hq. reflexivity.
Qed.

(** C3: an exception whose message contains "429", or "quota" in any
    case, carries the quota signature; in each of the three retry loops an
    attempt that fails with such an exception ends the loop at once, with
    no further call of the backend and no backoff sleep: the photo
    analysis returns the default description, the illustration records a
    null, and the narrative generator returns the fallback story, also
    when attempts before it have failed otherwise. *)
Theorem C3_quota_stops_retrying :
  ((forall pre post, quota_signature (pre +:+ "429" +:+ post) = true) /\
   (forall pre q post, lower q = "quota" -> quota_signature (pre +:+ q +:+ post) = true)) /\
  (forall contents attempt rest n e,
     truthy_client = true ->
     (generate_content GEMINI_VISION_MODEL contents None n).1.1 = inl e ->
     quota_signature e = true ->
     photo_attempts contents (attempt :: rest) n = (default_description, S n, [])) /\
  (forall prompt attempt rest images n,
     truthy_client = true ->
     image_quota_failure (image_call prompt n) = true ->
     image_attempts prompt (attempt :: rest) images n = (images ++ [None], S n, [])) /\
  (forall fallback prompt attempt rest n e,
     (story_operation prompt n).1.1 = OpRaise e ->
     quota_signature e = true ->
     story_attempts fallback prompt (attempt :: rest) n =
       (match fallback with
        | inr s => Returned s
        | inl e' => Raised e'
        end, (story_operation prompt n).1.2, (story_operation prompt n).2)) /\
  (forall kid_name age_level theme story_type story_length special_ingredients
          child_description k n e,
     let prompt :=
       generate_story_prompt kid_name age_level theme story_type story_length
         special_ingredients child_description in
     API_INITIALIZED = true -> truthy_client = true ->
     k < max_retries ->
     (forall i, i < k ->
        failed_without_quota (story_operation prompt (calls_after prompt i n)).1.1 = true) ->
     (story_operation prompt (calls_after prompt k n)).1.1 = OpRaise e ->
     quota_signature e = true ->
     exists s evs,
       create_fallback_story kid_name theme story_type story_length special_ingredients
         child_description = inr s /\
       generate_story kid_name age_level theme story_type story_length special_ingredients
           child_description n =
         (inr (Some s), (story_operation prompt (calls_after prompt k n)).1.2, evs) /\
       backoffs_of Narrative evs = map (fun i => base_delay * 2 ^ i) (seq 0 k)).
Proof.
  split; [split|split; [|split; [|split]]].
  - intros pre post. unfold quota_signature. now rewrite str_in_append.
  - intros pre q post Hq. unfold quota_signature.
    rewrite !lower_append, Hq, str_in_append. apply orb_true_r.
  - exact photo_attempts_quota.
  - intros prompt attempt rest images n Hc Hq.
    rewrite image_attempts_step by exact Hc.
    now rewrite (image_quota_failure_inv _ Hq), Hq.
  - intros fallback prompt attempt rest n e He Hq.
    rewrite story_attempts_step.
    destruct (story_operation prompt n) as [[r n1] evs1]. cbn [fst snd] in *.
    subst r. now rewrite Hq.
  - intros kid_name age_level theme story_type story_length special_ingredients
      child_description k n e prompt Ha Hc Hk Hfail He Hq.
    destruct (create_fallback_story_total kid_name theme story_type story_length
                special_ingredients child_description) as [s Hs].
    rewrite generate_story_run by assumption. fold prompt. cbv zeta. rewrite Hs.
    destruct (story_attempts_retries (inr s) prompt k 0 n Hk Hfail) as (evs & Hevs & Hrun).
    change (max_retries - 0) with max_retries in Hrun. rewrite Hrun. cbn [Nat.add].
    replace (max_retries - k) with (S (max_retries - S k)) by lia.
    cbn [seq]. rewrite story_attempts_step.
    pose proof (story_operation_events prompt (calls_after prompt k n)) as Hev.
    destruct (story_operation prompt (calls_after prompt k n)) as [[r n1] evs1].
    cbn [fst snd] in *. subst r. rewrite Hq.
    exists s, (evs ++ evs1). split; [reflexivity|]. split; [reflexivity|].
    now rewrite backoffs_of_app, Hev, app_nil_r.
Qed.

(** *** The orchestrator: claim C1 *)

(** C1: [process_story_request] never raises.  When the backend was never
    initialized it returns the serialized fallback story built with the
    default description, without calling the backend; when
    [generate_story] raises, whatever the exception, it returns the
    serialized fallback story. *)
Theorem C1_process_story_request_total
    (kid_name : string) (kid_photo : list byte)
    (age_level theme story_type story_length special_ingredients : string) (n : nat) :
  (exists d n' evs,
     process_story_request kid_name kid_photo age_level theme story_type story_length
       special_ingredients n = (inr d, n', evs)) /\
  (API_INITIALIZED = false ->
   exists s,
     create_fallback_story kid_name theme story_type story_length special_ingredients
       default_description = inr s /\
     process_story_request kid_name kid_photo age_level theme story_type story_length
       special_ingredients n = (inr (to_dict s), n, [])) /\
  (API_INITIALIZED = true ->
   forall e child_description n1 n2 evs1 evs2,
     analyze_photo kid_photo n = (child_description, n1, evs1) ->
     generate_story kid_name age_level theme story_type story_length special_ingredients
       child_description n1 = (inl e, n2, evs2) ->
     exists s,
       create_fallback_story kid_name theme story_type story_length special_ingredients
         default_description = inr s /\
       process_story_request kid_name kid_photo age_level theme story_type story_length
         special_ingredients n = (inr (to_dict s), n2, evs1 ++ evs2)).
Proof.
  destruct (create_fallback_story_total kid_name theme story_type story_length
              special_ingredients default_description) as [s Hs].
  assert (Hs' : create_fallback_story kid_name theme story_type story_length
                  special_ingredients
                  (if truthy_str default_description
                   then default_description else default_description) = inr s)
    by exact Hs.
  unfold process_story_request. split; [|split].
  - destruct API_INITIALIZED; cbn [negb].
    + unfold mbind, M_bind.
      destruct (analyze_photo kid_photo n) as [[child_description n1] evs1].
      destruct (generate_story kid_name age_level theme story_type story_length
                  special_ingredients child_description n1) as [[[e|[story0|]] n2] evs2];
        cbv zeta; rewrite ?Hs'; unfold mret, M_ret; eauto.
    + rewrite Hs. unfold mret, M_ret. eauto.
  - intros ->. cbn [negb]. rewrite Hs. exists s. split; reflexivity.
  - intros -> e child_description n1 n2 evs1 evs2 Hphoto Hstory. cbn [negb].
    unfold mbind, M_bind. rewrite Hphoto, Hstory. cbv zeta. rewrite Hs'.
    exists s. split; [exact Hs|]. unfold mret, M_ret. now rewrite app_nil_r.
Qed.

End PipelineProperties.

(** ** Examples: the properties above at concrete runs *)

(** The backend answers every call with a server error: the photo analysis
    and the narrative generator use up their three attempts, and the
    request is answered with the fallback story. *)
Lemma C1_witness :
  exists s,
    create_fallback_story "Mia" "space" "adventure" "short" "" default_description = inr s /\
    process_story_request (demo_env true []) "Mia" [] "3-5" "space" "adventure" "short" "" 0 =
      (inr (to_dict s), 6,
       [Backoff Photo 2; Backoff Photo 4; Backoff Narrative 2; Backoff Narrative 4]).
Proof.
  destruct (C1_process_story_request_total (demo_env true []) "Mia" [] "3-5" "space"
              "adventure" "short" "" 0) as (_ & _ & H).
  apply (H eq_refl "Failed to generate story after 3 attempts: 503 Service Unavailable"
           default_description 3 6 [Backoff Photo 2; Backoff Photo 4]
           [Backoff Narrative 2; Backoff Narrative 4]); vm_compute; reflexivity.
Defined.

(** Four prompts, the second of which is refused with a quota signature. *)
Lemma C2_witness :
  let env := demo_env true [inr (image_response demo_image); inl "429 Too Many Requests";
                            inr (image_response demo_image); inr (image_response demo_image)] in
  (generate_images env ["a"; "b"; "c"; "d"] "ctx" 0 =
     ([Some demo_image; None; Some demo_image; Some demo_image], 4,
      [Pause 1; Pause 1; Pause 1; Pause 1]) /\
   length [Some demo_image] = 1) /\
  (generate_images env ["a"; "b"; "c"; "d"] "ctx" 0).1.1 =
    [Some demo_image; None; Some demo_image; Some demo_image].
Proof.
  intros env.
  destruct (C2_generate_images env ["a"; "b"; "c"; "d"] "ctx" 0) as (_ & H2 & H3).
  split.
  - refine (H2 ["a"] "b" ["c"; "d"] 0 eq_refl eq_refl eq_refl _ _ _).
    + unfold max_retries. lia.
    + intros j Hj. lia.
    + vm_compute. reflexivity.
  - apply (H3 "a" "b" "c" "d" demo_image demo_image demo_image); vm_compute; reflexivity.
Defined.

(** The first call is refused with a quota signature: each loop stops
    after that one call, without sleeping. *)
Lemma C3_witness :
  let env := demo_env true [inl "429 RESOURCE_EXHAUSTED"] in
  let fallback := create_fallback_story "Mia" "ocean" "bedtime" "medium" "" "" in
  let prompt := generate_story_prompt "Mia" "3-5" "ocean" "bedtime" "medium" "" "" in
  quota_signature ("HTTP " +:+ "429" +:+ " Too Many Requests") = true /\
  quota_signature ("Daily " +:+ "QuOtA" +:+ " exceeded") = true /\
  photo_attempts env (TextAndImage vision_prompt tt) [0; 1; 2] 0 =
    (default_description, 1, []) /\
  image_attempts env "a" [0; 1; 2] [] 0 = ([None], 1, []) /\
  story_attempts env fallback prompt [0; 1; 2] 0 =
    (match fallback with
     | inr s => Returned s
     | inl e' => Raised e'
     end, 1, []) /\
  exists s evs,
    fallback = inr s /\
    generate_story env "Mia" "3-5" "ocean" "bedtime" "medium" "" "" 0 =
      (inr (Some s), 1, evs) /\
    backoffs_of Narrative evs = [].
Proof.
  intros env fallback prompt.
  destruct (C3_quota_stops_retrying env) as ((H429 & Hquota) & Hphoto & Himage & Hstory & Hgen).
  split; [apply H429|].
  split; [apply Hquota; vm_compute; reflexivity|].
  split; [apply (Hphoto _ 0 [1; 2] 0 "429 RESOURCE_EXHAUSTED"); vm_compute; reflexivity|].
  split; [apply (Himage "a" 0 [1; 2] [] 0); vm_compute; reflexivity|].
  split; [apply (Hstory fallback prompt 0 [1; 2] 0 "429 RESOURCE_EXHAUSTED");
          vm_compute; reflexivity|].
  refine (Hgen "Mia" "3-5" "ocean" "bedtime" "medium" "" "" 0 0 "429 RESOURCE_EXHAUSTED"
            eq_refl eq_refl _ _ _ _).
  - unfold max_retries. lia.
  - intros i Hi. lia.
  - vm_compute. reflexivity.
  - vm_compute. reflexivity.
Defined.

(** Two failures and then a success, in each loop: a server error, a reply
    that does not parse and a fenced reply that does, for the narrative; a
    server error, a reply without content and a reply with it, for the
    photo and for an image.  Two backoffs, of 2 and 4 seconds. *)
Lemma C4_witness :
  let env := demo_env true [inl "500 Internal Server Error";
                            inr (text_response "not json");
                            inr (text_response "```json{}```");
                            inr (image_response demo_image)] in
  let env' := demo_env true [inl "500 Internal Server Error";
                             inr (text_response "");
                             inr (mkResponse (Some "A child with a red hat.")
                                    [mkCandidate (Some (mkContent
                                       [mkPart (Some (mkBlob (Some demo_image)))]))])] in
  (exists evs,
     generate_story env "Mia" "3-5" "space" "adventure" "short" "" default_description 0 =
       (inr (Some demo_story), 4, evs) /\
     backoffs_of Narrative evs = [2; 4] /\
     length (backoffs_of Narrative evs) = 2) /\
  photo_attempts env' (TextAndImage vision_prompt tt) [0; 1; 2] 0 =
    ("A child with a red hat.", 3, [Backoff Photo 2; Backoff Photo 4]) /\
  image_attempts env' "a" [0; 1; 2] [] 0 =
    ([Some demo_image], 3, [Backoff Illustration 2; Backoff Illustration 4]).
Proof.
  intros env env'.
  assert (Hk : 2 < max_retries) by (unfold max_retries; lia).
  destruct (C4_retries_then_success env 2 Hk) as (Hstory & _).
  destruct (C4_retries_then_success env' 2 Hk) as (_ & Hphoto & Himage & _).
  split; [|split].
  - refine (Hstory "Mia" "3-5" "space" "adventure" "short" "" default_description 0
              demo_story eq_refl eq_refl _ _).
    + intros i Hi. destruct i as [|[|i]]; [vm_compute; reflexivity..|lia].
    + vm_compute. reflexivity.
  - refine (Hphoto (TextAndImage vision_prompt tt) 0 "A child with a red hat." eq_refl _ _).
    + intros j Hj. destruct j as [|[|j]]; [vm_compute; reflexivity..|lia].
    + vm_compute. reflexivity.
  - refine (Himage "a" [] 0 demo_image eq_refl _ _).
    + intros j Hj. destruct j as [|[|j]]; [vm_compute; reflexivity..|lia].
    + vm_compute. reflexivity.
Defined.

(** The scenario of the specification: the backend is unavailable, the
    child is Mia, the theme "space" and the length "short". *)
Example scenario_backend_unavailable :
  exists d,
    process_story_request (demo_env false []) "Mia" demo_image "3-5" "space" "adventure"
      "short" "" 0 = (inr d, 0, []) /\
    d_title d = "Mia's Cosmic Journey" /\
    length (d_story d) = 6 /\
    d_images d = [None; None; None].
Proof. eexists. split; [vm_compute; reflexivity|]. repeat split. Qed.

(** ** Further properties of the code *)

(** *** Slices of strings *)

Lemma str_length_append (a b : string) :
  String.length (a +:+ b) = String.length a + String.length b.
Proof.
  induction a as [|c a IH]; [reflexivity|].
  change (String c a +:+ b) with (String c (a +:+ b)). cbn [String.length]. now rewrite IH.
Qed.

Lemma substring_whole (s : string) : String.substring 0 (String.length s) s = s.
Proof. induction s as [|c s IH]; [reflexivity|]. cbn. now rewrite IH. Qed.

Lemma substring_append_left (a b : string) :
  String.substring 0 (String.length a) (a +:+ b) = a.
Proof.
  induction a as [|c a IH]; [now destruct b|].
  change (String c a +:+ b) with (String c (a +:+ b)). cbn. now rewrite IH.
Qed.

Lemma substring_append_right (a b : string) (m : nat) :
  String.substring (String.length a) m (a +:+ b) = String.substring 0 m b.
Proof.
  induction a as [|c a IH]; [reflexivity|].
  change (String c a +:+ b) with (String c (a +:+ b)). cbn. exact IH.
Qed.

Lemma slice_from_append (a b : string) : slice_from (String.length a) (a +:+ b) = b.
Proof.
  unfold slice_from. rewrite str_length_append, substring_append_right.
  replace (String.length a + String.length b - String.length a) with (String.length b) by lia.
  apply substring_whole.
Qed.

Lemma endswith_append (a b : string) : endswith (a +:+ b) b = true.
Proof.
  unfold endswith. rewrite str_length_append.
  replace (String.length a + String.length b - String.length b) with (String.length a) by lia.
  rewrite substring_append_right, substring_whole, String.eqb_refl.
  rewrite andb_true_r. apply Nat.leb_le. lia.
Qed.

Lemma slice_to_minus_append (a b : string) :
  slice_to_minus (String.length b) (a +:+ b) = a.
Proof.
  unfold slice_to_minus. rewrite str_length_append.
  replace (String.length a + String.length b - String.length b) with (String.length a) by lia.
  apply substring_append_left.
Qed.

(** *** The fences around the reply, lines 206 to 209 *)

(** X1: A reply wrapped in a leading "```json" and a trailing "```" is parsed
    without them, whatever lies between; a reply with only one of the two
    loses that one; a reply with neither is parsed as it is. *)
Theorem unfence_cases :
  (forall body, unfence ("```json" +:+ body +:+ "```") = body) /\
  (forall body, endswith body "```" = false -> unfence ("```json" +:+ body) = body) /\
  (forall body, startswith (body +:+ "```") "```json" = false ->
                unfence (body +:+ "```") = body) /\
  (forall text, startswith text "```json" = false -> endswith text "```" = false ->
                unfence text = text).
Proof.
  repeat split.
  - intros body. unfold unfence, startswith. rewrite prefix_append.
    change 7 with (String.length "```json"). rewrite slice_from_append.
    rewrite endswith_append. exact (slice_to_minus_append body "```").
  - intros body Hend. unfold unfence, startswith. rewrite prefix_append.
    change 7 with (String.length "```json"). rewrite slice_from_append.
    now rewrite Hend.
  - intros body Hstart. unfold unfence. rewrite Hstart, endswith_append.
    exact (slice_to_minus_append body "```").
  - intros text Hstart Hend. unfold unfence. now rewrite Hstart, Hend.
Qed.

Lemma unfence_cases_witness :
  unfence ("```json" +:+ "{}") = "{}" /\
  unfence ("[1, 2]" +:+ "```") = "[1, 2]" /\
  unfence "{}" = "{}".
Proof.
  destruct unfence_cases as (_ & Hlead & Htrail & Hnone).
  split; [apply Hlead; vm_compute; reflexivity|].
  split; [apply Htrail; vm_compute; reflexivity|].
  apply Hnone; vm_compute; reflexivity.
Defined.

(** *** The module globals *)

(** X2: After the initialization of the module, [API_INITIALIZED] is true
    exactly when there is a client, and exactly when the key is set, is
    not empty and [genai.Client] accepted it. *)
Theorem module_init_invariant {Client : Type} (GEMINI_API_KEY : option string)
    (genai_Client : string -> exn + Client) :
  let initialized := (module_init GEMINI_API_KEY genai_Client).1 in
  let client := (module_init GEMINI_API_KEY genai_Client).2 in
  (initialized = true <-> is_Some client) /\
  (initialized = false <-> client = None) /\
  (initialized = true <->
   exists api_key c,
     GEMINI_API_KEY = Some api_key /\ api_key <> "" /\
     genai_Client api_key = inr c /\ client = Some c).
Proof.
  cbv zeta. unfold module_init, truthy_text, truthy_str.
  destruct GEMINI_API_KEY as [api_key|]; cbn [default from_option id].
  - destruct (String.eqb_spec api_key "") as [->|Hne]; cbn [negb].
    + cbn [fst snd]. split; [split; [discriminate | intros [c Hc]; discriminate]|].
      split; [split; reflexivity|].
      split; [discriminate|]. intros (k & c & Hk & Hne & _).
      injection Hk as <-. now destruct Hne.
    + destruct (genai_Client api_key) as [e|c] eqn:Hmk; cbn [fst snd].
      * split; [split; [discriminate | intros [c Hc]; discriminate]|].
        split; [split; reflexivity|].
        split; [discriminate|]. intros (k & c & Hk & _ & Hc & _).
        injection Hk as <-. congruence.
      * split; [split; eauto|].
        split; [split; discriminate|].
        split; [|reflexivity]. intros _. exists api_key, c. auto.
  - cbn [negb fst snd].
    split; [split; [discriminate | intros [c Hc]; discriminate]|].
    split; [split; reflexivity|].
    split; [discriminate|]. intros (k & c & Hk & _). discriminate.
Qed.

(** *** The fallback stories, cut and filled *)

(** X3: For "short" the fallback story is the first six sentences and the
    first three image prompts of the template, in their order; for "long"
    it is the eight sentences of the template followed by four copies of
    the filler sentence, and the four image prompts followed by two copies
    of the filler prompt, which names the theme that was selected. *)
Theorem fallback_short_and_long
    (kid_name theme story_type special_ingredients child_description : string) :
  let fs := default (forest_template kid_name) (fallback_stories kid_name !! theme) in
  let selected :=
    match fallback_stories kid_name !! theme with
    | None => "forest"
    | Some _ => theme
    end in
  create_fallback_story kid_name theme story_type "short" special_ingredients
      child_description =
    inr (mkStory (t_title fs) (t_moral fs)
           (take 6 (t_story fs)) (take 3 (t_imagePrompts fs))
           [None; None; None]) /\
  create_fallback_story kid_name theme story_type "long" special_ingredients
      child_description =
    inr (mkStory (t_title fs) (t_moral fs)
           (t_story fs ++ replicate 4 (filler_sentence kid_name))
           (t_imagePrompts fs ++ replicate 2 (filler_prompt kid_name selected))
           [None; None; None; None; None; None]).
Proof.
  intros fs selected.
  destruct (create_fallback_story_spec kid_name theme story_type "short"
              special_ingredients child_description) as [Hsel ->].
  destruct (create_fallback_story_spec kid_name theme story_type "long"
              special_ingredients child_description) as [_ ->].
  fold fs in Hsel |- *. fold selected in Hsel |- *.
  destruct (template_lengths _ _ _ Hsel) as [Hs Hp].
  change (sentence_count_of "short") with 6. change (sentence_count_of "long") with 12.
  change (6 / 2) with 3. change (12 / 2) with 6.
  rewrite !shape_to_longer by lia. rewrite !shape_to_shorter by lia.
  rewrite Hs, Hp. split; reflexivity.
Qed.

(** *** The prompt of the narrative generator, lines 139 to 148 *)

(** X4: A theme that is none of the six keys of [theme_descriptions] is
    described to the model as the theme "custom" is: by the special
    ingredients, or by the generic description when these are empty. *)
Theorem unknown_theme_prompt_is_custom
    (kid_name age_level theme story_type story_length special_ingredients
     child_description : string) :
  theme ∉ ["forest"; "space"; "ocean"; "kingdom"; "dinosaur"; "custom"] ->
  generate_story_prompt kid_name age_level theme story_type story_length
      special_ingredients child_description =
    generate_story_prompt kid_name age_level "custom" story_type story_length
      special_ingredients child_description /\
  generate_story_prompt kid_name age_level theme story_type story_length
      special_ingredients child_description =
    story_prompt kid_name age_level story_type special_ingredients child_description
      (if truthy_str special_ingredients then special_ingredients
       else "magical world of wonder and adventure")
      (sentence_count_of story_length).
Proof.
  rewrite !not_elem_of_cons. intros (H1 & H2 & H3 & H4 & H5 & H6 & _).
  unfold generate_story_prompt, theme_descriptions.
  rewrite !lookup_insert, lookup_empty.
  repeat case_decide; try congruence. split; reflexivity.
Qed.

Lemma unknown_theme_prompt_is_custom_witness :
  generate_story_prompt "Mia" "3-5" "jungle" "adventure" "short" "a red kite" "" =
    generate_story_prompt "Mia" "3-5" "custom" "adventure" "short" "a red kite" "" /\
  generate_story_prompt "Mia" "3-5" "jungle" "adventure" "short" "a red kite" "" =
    story_prompt "Mia" "3-5" "adventure" "a red kite" ""
      (if truthy_str "a red kite" then "a red kite"
       else "magical world of wonder and adventure")
      (sentence_count_of "short").
Proof.
  apply (unknown_theme_prompt_is_custom "Mia" "3-5" "jungle" "adventure" "short"
           "a red kite" "").
  rewrite !not_elem_of_cons. repeat split; try discriminate. apply not_elem_of_nil.
Defined.

(** *** The endpoint that retrieves a story *)

(** X5: [get_story] answers every failure with status 500: a failure of the
    database, and also a story that is not found, whose 404 is raised
    inside the [try] and caught by its own handler.  A story that is found
    is answered with its id, title, moral, sentences, images and date. *)
Theorem get_story_answers
    (find_one : string -> exn + option GeneratedStory.t)
    (str_http : HTTPException.t -> string) (story_id : string) :
  (forall e, Server.get_story find_one str_http story_id = inl e ->
             HTTPException.status_code e = 500) /\
  (find_one story_id = inr None ->
   Server.get_story find_one str_http story_id =
     inl (HTTPException.mk 500
            ("Failed to retrieve story: " +:+
             str_http (HTTPException.mk 404 "Story not found")))) /\
  (forall story_doc,
     find_one story_id = inr (Some story_doc) ->
     Server.get_story find_one str_http story_id = inr (Server.response_of story_doc)).
Proof.
  unfold Server.get_story. split; [|split].
  - intros e. destruct (find_one story_id) as [err|[story_doc|]]; intros [= <-]; reflexivity.
  - intros ->. reflexivity.
  - intros story_doc ->. reflexivity.
Qed.

Lemma get_story_answers_witness :
  Server.get_story (fun _ => inr None)
    (fun h => pretty (HTTPException.status_code h) +:+ ": " +:+ HTTPException.detail h)
    "no-such-id" =
  inl (HTTPException.mk 500 "Failed to retrieve story: 404: Story not found").
Proof.
  exact (proj1 (proj2 (get_story_answers (fun _ => inr None)
                         (fun h => pretty (HTTPException.status_code h) +:+ ": "
                                   +:+ HTTPException.detail h)
                         "no-such-id")) eq_refl).
Defined.

(** *** What the fallback story depends on *)

(** X6: The fallback story is made from the name of the child, the theme and
    the number of sentences the length stands for, and from nothing else:
    the story type, the special ingredients and the description of the
    child are not used, and two lengths with the same number of sentences,
    such as "medium" and a length that is not known, give the same story. *)
Theorem create_fallback_story_ignores
    (kid_name theme : string)
    (story_type story_length special_ingredients child_description : string)
    (story_type' story_length' special_ingredients' child_description' : string) :
  sentence_count_of story_length = sentence_count_of story_length' ->
  create_fallback_story kid_name theme story_type story_length special_ingredients
      child_description =
    create_fallback_story kid_name theme story_type' story_length' special_ingredients'
      child_description'.
Proof.
  intros H.
  destruct (create_fallback_story_spec kid_name theme story_type story_length
              special_ingredients child_description) as [_ ->].
  destruct (create_fallback_story_spec kid_name theme story_type' story_length'
              special_ingredients' child_description') as [_ ->].
  cbv zeta. now rewrite H.
Qed.

Lemma create_fallback_story_ignores_witness :
  create_fallback_story "Mia" "ocean" "bedtime" "medium" "a red kite" "A child." =
    create_fallback_story "Mia" "ocean" "adventure" "enormous" "" default_description.
Proof.
  apply (create_fallback_story_ignores "Mia" "ocean" "bedtime" "medium" "a red kite"
           "A child." "adventure" "enormous" "" default_description).
  vm_compute. reflexivity.
Defined.

(** *** The pipeline *)

Section PipelineCoverage.

Variable env : Env.t.

Local Abbreviation Image := (Env.Image env).
Local Abbreviation Image_open := (Env.Image_open env).
Local Abbreviation strip := (Env.strip env).
Local Abbreviation json_loads := (Env.json_loads env).
Local Abbreviation API_INITIALIZED := (Env.API_INITIALIZED env).
Local Abbreviation client := (Env.client env).
Local Abbreviation truthy_client := (truthy_client env).
Local Abbreviation generate_content := (generate_content env).
Local Abbreviation photo_attempts := (photo_attempts env).
Local Abbreviation analyze_photo := (analyze_photo env).
Local Abbreviation image_attempts := (image_attempts env).
Local Abbreviation images_loop := (images_loop env).
Local Abbreviation generate_images := (generate_images env).
Local Abbreviation story_operation := (story_operation env).
Local Abbreviation story_attempts := (story_attempts env).
Local Abbreviation generate_story := (generate_story env).
Local Abbreviation process_story_request := (process_story_request env).
Local Abbreviation image_call := (image_call env).
Local Abbreviation photo_call := (photo_call env).
Local Abbreviation photo_answer := (photo_answer env).
Local Abbreviation calls_after := (calls_after env).
Local Abbreviation parsed_reply := (parsed_reply env).

(** **** [analyze_photo] *)

Lemma photo_attempts_budget contents m :
  truthy_client = true ->
  forall k n,
    k + m = max_retries ->
    (m = 0 /\ photo_attempts contents (seq k m) n = (default_description, n, [])) \/
    (0 < m /\
     exists d n' j,
       photo_attempts contents (seq k m) n =
         (d, n', map (fun i => Backoff Photo (base_delay * 2 ^ i)) (seq k j)) /\
       n < n' <= n + m /\ j < m).
Proof.
  intros Hc. induction m as [|m IH]; intros k n Hk; [left; auto|].
  right. split; [lia|]. cbn [seq]. rewrite photo_attempts_step by exact Hc.
  destruct (photo_answer (photo_call contents n)) as [d|].
  { exists d, (S n), 0. split; [reflexivity|]. lia. }
  destruct (photo_soft_failure (photo_call contents n)).
  2: { exists default_description, (S n), 0. split; [reflexivity|]. lia. }
  destruct (IH (S k) (S n) ltac:(lia)) as [[-> Hrun]|(Hm & d & n' & j & Hrun & Hn & Hj)].
  - replace (k <? max_retries - 1)%nat with false by (symmetry; apply Nat.ltb_ge; lia).
    cbn [seq] in *. rewrite Hrun. exists default_description, (S n), 0.
    split; [reflexivity|]. lia.
  - replace (k <? max_retries - 1)%nat with true by (symmetry; apply Nat.ltb_lt; lia).
    rewrite Hrun. exists d, n', (S j). split; [reflexivity|]. lia.
Qed.

(** X7: The photo analysis calls the backend at most three times and sleeps
    at most twice, 2 and then 4 seconds; when it makes no call at all it
    returns the default description, and it makes none when the backend is
    not initialized or when the photo cannot be read. *)
Theorem analyze_photo_budget (photo_bytes : list byte) (n : nat) :
  (exists d n' evs,
     analyze_photo photo_bytes n = (d, n', evs) /\
     n <= n' <= n + max_retries /\
     (evs = [] \/ evs = [Backoff Photo 2] \/ evs = [Backoff Photo 2; Backoff Photo 4]) /\
     (n' = n -> d = default_description /\ evs = [])) /\
  (API_INITIALIZED = false \/ truthy_client = false \/
   (exists e, Image_open photo_bytes = inl e) ->
   analyze_photo photo_bytes n = (default_description, n, [])).
Proof.
  split.
  - unfold analyze_photo.
    destruct (negb API_INITIALIZED || negb truthy_client) eqn:Hguard.
    { exists default_description, n, []. split; [reflexivity|].
      split; [lia|]. auto. }
    apply orb_false_elim in Hguard as [_ Hc]. apply negb_false_iff in Hc.
    destruct (Image_open photo_bytes) as [e|image].
    { exists default_description, n, []. split; [reflexivity|].
      split; [lia|]. auto. }
    destruct (photo_attempts_budget (TextAndImage vision_prompt image) max_retries Hc 0 n
                eq_refl) as [[H0 _]|(_ & d & n' & j & Hrun & Hn & Hj)]; [discriminate H0|].
    exists d, n', (map (fun i => Backoff Photo (base_delay * 2 ^ i)) (seq 0 j)).
    split; [exact Hrun|]. split; [lia|]. split; [|lia].
    destruct j as [|[|[|j]]]; auto. unfold max_retries in Hj. lia.
  - intros [Ha|[Hc|[e He]]]; unfold analyze_photo.
    + now rewrite Ha.
    + rewrite Hc. cbn [negb]. now rewrite orb_true_r.
    + rewrite He. now destruct (negb API_INITIALIZED || negb truthy_client).
Qed.

(** X8: When the three attempts of the photo analysis all fail without a quota
    signature (an exception, or a reply without text), the default
    description is returned after three calls and two sleeps, of 2 and 4
    seconds: there is no sleep after the last attempt. *)
Theorem analyze_photo_exhausted (photo_bytes : list byte) (image : Image) (n : nat) :
  API_INITIALIZED = true -> truthy_client = true ->
  Image_open photo_bytes = inr image ->
  (forall j, j < max_retries ->
     photo_soft_failure (photo_call (TextAndImage vision_prompt image) (n + j)) = true) ->
  analyze_photo photo_bytes n =
    (default_description, n + 3, [Backoff Photo 2; Backoff Photo 4]).
Proof.
  intros Ha Hc Himg Hsoft. unfold analyze_photo. rewrite Ha, Hc, Himg. cbn [negb orb].
  pose proof (Hsoft 0 ltac:(unfold max_retries; lia)) as H0.
  pose proof (Hsoft 1 ltac:(unfold max_retries; lia)) as H1.
  pose proof (Hsoft 2 ltac:(unfold max_retries; lia)) as H2.
  replace (n + 0) with n in H0 by lia.
  replace (n + 1) with (S n) in H1 by lia.
  replace (n + 2) with (S (S n)) in H2 by lia.
  change (seq 0 max_retries) with [0; 1; 2].
  rewrite photo_attempts_step by exact Hc.
  rewrite (photo_soft_failure_inv env _ H0), H0.
  rewrite photo_attempts_step by exact Hc.
  rewrite (photo_soft_failure_inv env _ H1), H1.
  rewrite photo_attempts_step by exact Hc.
  rewrite (photo_soft_failure_inv env _ H2), H2.
  replace (n + 3) with (S (S (S n))) by lia. reflexivity.
Qed.

(** X9: The reply of the photo analysis is tested for emptiness before it is
    stripped: a first reply that has text, but text that [strip] reduces to
    nothing, makes [analyze_photo] return the empty string and not the
    default description. *)
Theorem analyze_photo_blank_reply
    (photo_bytes : list byte) (image : Image) (response : Response) (t : string) (n : nat) :
  API_INITIALIZED = true -> truthy_client = true ->
  Image_open photo_bytes = inr image ->
  photo_call (TextAndImage vision_prompt image) n = inr response ->
  text response = Some t -> t <> "" -> strip t = "" ->
  analyze_photo photo_bytes n = ("", S n, []).
Proof.
  intros Ha Hc Himg Hcall Ht Hne Hblank.
  unfold analyze_photo. rewrite Ha, Hc, Himg. cbn [negb orb].
  change (seq 0 max_retries) with [0; 1; 2].
  rewrite photo_attempts_step by exact Hc. rewrite Hcall.
  unfold photo_answer, truthy_text, truthy_str. rewrite Ht.
  destruct (String.eqb_spec t "") as [->|_]; [now destruct Hne|].
  cbn [negb default from_option id]. now rewrite Hblank.
Qed.

(** *** The illustration generator *)

Lemma seconds_slept_app evs1 evs2 :
  seconds_slept (evs1 ++ evs2) = seconds_slept evs1 + seconds_slept evs2.
Proof.
  induction evs1 as [|[st s|s] evs1 IH]; [reflexivity|..];
    cbn [app seconds_slept foldr] in *; fold (seconds_slept (evs1 ++ evs2));
    fold (seconds_slept evs1); lia.
Qed.

Lemma pauses_of_app evs1 evs2 :
  pauses_of (evs1 ++ evs2) = pauses_of evs1 ++ pauses_of evs2.
Proof. apply omap_app. Qed.

(** One prompt costs between one and three calls, no pause and at most
    six seconds of backoff. *)
Lemma image_attempts_budget prompt images n :
  truthy_client = true ->
  exists img n' evs,
    image_attempts prompt (seq 0 max_retries) images n = (images ++ [img], n', evs) /\
    n < n' <= n + max_retries /\ pauses_of evs = [] /\ seconds_slept evs <= 6.
Proof.
  intros Hc. unfold max_retries.
  assert (H2 : forall n, exists img n' evs,
             image_attempts prompt [2] images n = (images ++ [img], n', evs) /\
             n < n' <= n + 1 /\ pauses_of evs = [] /\ seconds_slept evs <= 0).
  { intros m. rewrite image_attempts_step by exact Hc.
    destruct (image_delivered (image_call prompt m)) as [d|].
    - exists (Some d), (S m), []. cbn. repeat split; lia.
    - destruct (image_quota_failure (image_call prompt m));
        exists None, (S m), []; cbn; repeat split; lia. }
  assert (H1 : forall n, exists img n' evs,
             image_attempts prompt [1; 2] images n = (images ++ [img], n', evs) /\
             n < n' <= n + 2 /\ pauses_of evs = [] /\ seconds_slept evs <= 4).
  { intros m. rewrite image_attempts_step by exact Hc.
    destruct (image_delivered (image_call prompt m)) as [d|].
    - exists (Some d), (S m), []. cbn. repeat split; lia.
    - destruct (image_quota_failure (image_call prompt m)).
      + exists None, (S m), []. cbn. repeat split; lia.
      + cbn [Nat.ltb Nat.leb max_retries Nat.sub].
        destruct (H2 (S m)) as (img & n' & evs & -> & Hn & Hp & Hs).
        exists img, n', (Backoff Illustration (base_delay * 2 ^ 1) :: evs).
        cbn [pauses_of omap seconds_slept foldr] in *.
        fold (seconds_slept evs). fold (pauses_of evs).
        repeat split; try assumption; try lia. cbn. lia. }
  cbn [seq]. rewrite image_attempts_step by exact Hc.
  destruct (image_delivered (image_call prompt n)) as [d|].
  - exists (Some d), (S n), []. cbn. repeat split; lia.
  - destruct (image_quota_failure (image_call prompt n)).
    + exists None, (S n), []. cbn. repeat split; lia.
    + cbn [Nat.ltb Nat.leb max_retries Nat.sub].
      destruct (H1 (S n)) as (img & n' & evs & -> & Hn & Hp & Hs).
      exists img, n', (Backoff Illustration (base_delay * 2 ^ 0) :: evs).
      cbn [pauses_of omap seconds_slept foldr] in *.
      fold (seconds_slept evs). fold (pauses_of evs).
      repeat split; try assumption; try lia. cbn. lia.
Qed.

Lemma images_loop_budget prompts :
  truthy_client = true ->
  forall images n,
  exists images' n' evs,
    images_loop prompts images n = (images', n', evs) /\
    n + length prompts <= n' <= n + max_retries * length prompts /\
    pauses_of evs = replicate (length prompts) 1 /\
    length prompts <= seconds_slept evs <= 7 * length prompts.
Proof.
  intros Hc. induction prompts as [|prompt rest IH]; intros images n.
  - exists images, n, []. cbn. repeat split; lia.
  - cbn [images_loop]. unfold mbind, M_bind, sleep.
    destruct (image_attempts_budget prompt images n Hc)
      as (img & n1 & evs1 & -> & Hn1 & Hp1 & Hs1).
    destruct (IH (images ++ [img]) n1) as (images' & n2 & evs2 & -> & Hn2 & Hp2 & Hs2).
    exists images', n2, (evs1 ++ [Pause 1] ++ evs2).
    split; [reflexivity|].
    rewrite !pauses_of_app, !seconds_slept_app, Hp1, Hp2.
    unfold max_retries in *. cbn [length app pauses_of omap seconds_slept foldr replicate].
    repeat split; lia.
Qed.

(** X10: The cost of [generate_images]: with the backend available, every
    prompt costs at least one call and at most three, is followed by one
    pause of one second, and the run sleeps between one and seven seconds
    for each prompt; without it, no call is made and nothing is slept. *)
Theorem generate_images_budget (prompts : list string) (story_context : string) (n : nat) :
  (API_INITIALIZED = true -> truthy_client = true ->
   let '(_, n', evs) := generate_images prompts story_context n in
   n + length prompts <= n' <= n + max_retries * length prompts /\
   pauses_of evs = replicate (length prompts) 1 /\
   length prompts <= seconds_slept evs <= 7 * length prompts) /\
  (API_INITIALIZED = false \/ truthy_client = false ->
   generate_images prompts story_context n = (replicate (length prompts) None, n, [])).
Proof.
  split.
  - intros Ha Hc. rewrite generate_images_ready by assumption.
    destruct (images_loop_budget prompts Hc [] n) as (images' & n' & evs & -> & H).
    exact H.
  - intros H. unfold generate_images.
    destruct H as [-> | ->]; [reflexivity|].
    now rewrite orb_true_r.
Qed.

Lemma image_attempts_exhausted prompt images n :
  truthy_client = true ->
  (forall j, j < max_retries -> image_soft_failure (image_call prompt (n + j)) = true) ->
  image_attempts prompt (seq 0 max_retries) images n =
    (images ++ [None], n + 3, [Backoff Illustration 2; Backoff Illustration 4]).
Proof.
  intros Hc Hsoft.
  pose proof (Hsoft 0 ltac:(unfold max_retries; lia)) as H0.
  pose proof (Hsoft 1 ltac:(unfold max_retries; lia)) as H1.
  pose proof (Hsoft 2 ltac:(unfold max_retries; lia)) as H2.
  replace (n + 0) with n in H0 by lia.
  replace (n + 1) with (S n) in H1 by lia.
  replace (n + 2) with (S (S n)) in H2 by lia.
  apply image_soft_failure_inv in H0 as [D0 Q0].
  apply image_soft_failure_inv in H1 as [D1 Q1].
  apply image_soft_failure_inv in H2 as [D2 Q2].
  change (seq 0 max_retries) with [0; 1; 2].
  rewrite image_attempts_step by exact Hc. rewrite D0, Q0.
  cbn [Nat.ltb Nat.leb max_retries Nat.sub].
  rewrite image_attempts_step by exact Hc. rewrite D1, Q1.
  cbn [Nat.ltb Nat.leb max_retries Nat.sub].
  rewrite image_attempts_step by exact Hc. rewrite D2, Q2.
  cbn [Nat.ltb Nat.leb max_retries Nat.sub].
  replace (n + 3) with (S (S (S n))) by lia. reflexivity.
Qed.

(** X11: When the three attempts for a prompt all fail without a quota
    signature, the entry at the position of that prompt is null after three
    calls and backoffs of 2 and 4 seconds, with no backoff after the last
    attempt; the pause follows and the prompts after it are processed as
    usual. *)
Theorem generate_images_exhausted
    (before : list string) (prompt : string) (after : list string)
    (story_context : string) (n : nat) :
  API_INITIALIZED = true -> truthy_client = true ->
  let n1 := (generate_images before story_context n).1.2 in
  (forall j, j < max_retries -> image_soft_failure (image_call prompt (n1 + j)) = true) ->
  let '(images1, _, evs1) := generate_images before story_context n in
  let '(images2, n2, evs2) := generate_images after story_context (n1 + 3) in
  generate_images (before ++ prompt :: after) story_context n =
    (images1 ++ None :: images2, n2,
     evs1 ++ [Backoff Illustration 2; Backoff Illustration 4; Pause 1] ++ evs2).
Proof.
  intros Ha Hc n1 Hsoft. subst n1.
  rewrite !generate_images_ready in * by assumption.
  rewrite images_loop_app.
  destruct (images_loop before [] n) as [[images1 n1] evs1].
  cbn [fst snd] in *.
  cbn [images_loop]. unfold mbind at 1, M_bind at 1.
  rewrite (image_attempts_exhausted prompt images1 n1 Hc Hsoft).
  unfold mbind at 1, M_bind at 1, sleep.
  rewrite (images_loop_acc env after (images1 ++ [None])) by exact Hc.
  destruct (images_loop after [] (n1 + 3)) as [[images2 n2] evs2].
  rewrite <- !app_assoc. reflexivity.
Qed.

(** X12: The illustration generator treats its prompts one after the other and
    keeps nothing from one to the next but the count of calls: the run on
    a concatenation is the run on the first list followed by the run on the
    second, and the context argument plays no part. *)
Theorem generate_images_app
    (prompts1 prompts2 : list string) (context context1 context2 : string) (n : nat) :
  generate_images (prompts1 ++ prompts2) context n =
    let '(images1, n1, evs1) := generate_images prompts1 context1 n in
    let '(images2, n2, evs2) := generate_images prompts2 context2 n1 in
    (images1 ++ images2, n2, evs1 ++ evs2).
Proof.
  unfold generate_images.
  destruct (negb API_INITIALIZED || negb truthy_client) eqn:Hguard.
  - unfold mret, M_ret. rewrite length_app, replicate_add. reflexivity.
  - apply orb_false_elim in Hguard as [_ Hc]. apply negb_false_iff in Hc.
    rewrite images_loop_app.
    destruct (images_loop prompts1 [] n) as [[images1 n1] evs1].
    rewrite (images_loop_acc env prompts2 images1) by exact Hc.
    destruct (images_loop prompts2 [] n1) as [[images2 n2] evs2]. reflexivity.
Qed.

(** *** The narrative generator *)

(** A text in front of a message changes nothing to a search for a word
    whose first character the text does not have. *)
Lemma str_in_skip (c : ascii) (k pre e : string) :
  str_in (String c EmptyString) pre = false ->
  str_in (String c k) (pre +:+ e) = str_in (String c k) e.
Proof.
  induction pre as [|a pre IH]; [reflexivity|].
  change (String a pre +:+ e) with (String a (pre +:+ e)).
  cbn [str_in String.prefix].
  destruct (ascii_dec c a) as [->|Hne].
  - destruct pre; discriminate.
  - cbn [orb]. exact IH.
Qed.

Lemma quota_signature_prefixed (e : exn) :
  quota_signature ("Failed to generate story after 3 attempts: " +:+ e) =
    quota_signature e.
Proof.
  unfold quota_signature. rewrite lower_append.
  assert (H4 : str_in "4" "Failed to generate story after 3 attempts: " = false)
    by (vm_compute; reflexivity).
  assert (Hq : str_in "q" (lower "Failed to generate story after 3 attempts: ") = false)
    by (vm_compute; reflexivity).
  rewrite (str_in_skip "4" "29" _ e H4).
  rewrite (str_in_skip "q" "uota" _ (lower e) Hq). reflexivity.
Qed.

Lemma quota_signature_not_initialized :
  quota_signature "Gemini API not initialized" = false.
Proof. vm_compute. reflexivity. Qed.



(** X14: When the three iterations over the narrative all fail without a quota
    signature, [generate_story] raises: the message is that of the third
    failure (the fixed message for a reply without content) behind "Failed
    to generate story after 3 attempts: ", the backoffs are of 2 and 4
    seconds, and no fallback story is made. *)
Theorem generate_story_exhausted
    (kid_name age_level theme story_type story_length special_ingredients
     child_description : string) (n : nat) :
  let prompt :=
    generate_story_prompt kid_name age_level theme story_type story_length
      special_ingredients child_description in
  API_INITIALIZED = true -> truthy_client = true ->
  (forall i, i < max_retries ->
     failed_without_quota (story_operation prompt (calls_after prompt i n)).1.1 = true) ->
  exists evs,
    generate_story kid_name age_level theme story_type story_length special_ingredients
        child_description n =
      (inl ("Failed to generate story after 3 attempts: " +:+
            match (story_operation prompt (calls_after prompt 2 n)).1.1 with
            | OpRaise e => e
            | _ => "Failed to generate story content"
            end),
       calls_after prompt max_retries n, evs) /\
    backoffs_of Narrative evs = [2; 4].
Proof.
  intros prompt Ha Hc Hfail.
  rewrite (generate_story_run env) by assumption. fold prompt. cbv zeta.
  set (fallback := create_fallback_story _ _ _ _ _ _).
  destruct (story_attempts_retries env fallback prompt 2 0 n
              ltac:(unfold max_retries; lia)
              ltac:(intros i Hi; apply Hfail; unfold max_retries; lia))
    as (evs & Hevs & Hrun).
  change (max_retries - 0) with max_retries in Hrun. rewrite Hrun.
  change (seq (0 + 2) (max_retries - (0 + 2))) with [2].
  rewrite story_attempts_step.
  pose proof (story_operation_events env prompt (calls_after prompt 2 n)) as Hev.
  pose proof (Hfail 2 ltac:(unfold max_retries; lia)) as H2.
  change (calls_after prompt max_retries n) with (calls_after prompt (S 2) n).
  rewrite (calls_after_S env prompt 2 n).
  destruct (story_operation prompt (calls_after prompt 2 n)) as [[r n1] evs1].
  cbn [fst snd] in *.
  destruct r as [s| |e]; [discriminate H2| |].
  - cbn [Nat.ltb Nat.leb max_retries Nat.sub].
    change ("Failed to generate story after 3 attempts: Failed to generate story content")
      with ("Failed to generate story after 3 attempts: " +:+
            "Failed to generate story content").
    rewrite quota_signature_prefixed, quota_signature_no_content.
    exists (evs ++ evs1). split; [reflexivity|].
    rewrite backoffs_of_app, Hev, app_nil_r, Hevs. reflexivity.
  - cbn [failed_without_quota] in H2. apply negb_true_iff in H2. rewrite H2.
    cbn [Nat.ltb Nat.leb max_retries Nat.sub].
    rewrite quota_signature_prefixed, H2.
    exists (evs ++ evs1). split; [reflexivity|].
    rewrite backoffs_of_app, Hev, app_nil_r, Hevs. reflexivity.
Qed.

(** *** The members of the reply *)

Lemma parsed_reply_call prompt n parsed :
  parsed_reply prompt n = Some parsed ->
  exists response,
    generate_content GEMINI_TEXT_MODEL (Text prompt) None n = (inr response, S n, []) /\
    truthy_text (text response) = true /\
    parsed = json_loads (unfence (strip (default "" (text response)))).
Proof.
  unfold parsed_reply, generate_content.
  destruct client as [backend|]; cbn [fst]; [|discriminate].
  destruct (backend n GEMINI_TEXT_MODEL (Text prompt) None) as [e|response];
    [discriminate|].
  destruct (truthy_text (text response)) eqn:Ht; [|discriminate].
  intros [= <-]. eauto.
Qed.

(** X15: A reply that parses but lacks a member fails the attempt with the
    [KeyError] of that member, which has no quota signature, so that the
    loop goes on.  A reply without "imagePrompts" or "story" fails at once,
    after the one call.  A reply that has both but lacks "title" or "moral"
    fails only after the illustration generator has run for all its
    prompts: the calls and the sleeps are those of this run, and its
    images are dropped. *)
Theorem story_operation_missing_member (prompt : string) (n : nat) (data : StoryData) :
  parsed_reply prompt n = Some (inr data) ->
  (sd_imagePrompts data = None ->
   story_operation prompt n = (OpRaise "'imagePrompts'", S n, [])) /\
  (is_Some (sd_imagePrompts data) -> sd_story data = None ->
   story_operation prompt n = (OpRaise "'story'", S n, [])) /\
  (forall prompts sentences,
     sd_imagePrompts data = Some prompts -> sd_story data = Some sentences ->
     sd_title data = None \/ sd_moral data = None ->
     exists e,
       story_operation prompt n =
         (OpRaise e,
          (generate_images prompts (String.concat " " sentences) (S n)).1.2,
          (generate_images prompts (String.concat " " sentences) (S n)).2) /\
       e = match sd_title data with Some _ => "'moral'" | None => "'title'" end /\
       failed_without_quota (OpRaise e) = true).
Proof.
  intros Hp. destruct (parsed_reply_call _ _ _ Hp) as (response & Hcall & Ht & Hparsed).
  assert (Hop : forall k : StoryData -> M Attempt,
            (r ← generate_content GEMINI_TEXT_MODEL (Text prompt) None;
             match r with
             | inl e => mret (OpRaise e)
             | inr response =>
                 if negb (truthy_text (text response)) then mret OpEmpty
                 else
                   match json_loads (unfence (strip (default "" (text response)))) with
                   | inl e => mret (OpRaise e)
                   | inr story_data => k story_data
                   end
             end) n =
            let '(r, n', evs) := k data (S n) in (r, n', evs)).
  { intros k. unfold mbind, M_bind. rewrite Hcall, Ht. cbn [negb].
    rewrite <- Hparsed. destruct (k data (S n)) as [[r n'] evs]. reflexivity. }
  unfold story_operation. fold (unfence (strip (default "" (text response)))) in *.
  split; [|split].
  - intros Hnone.
    etransitivity; [apply (Hop (fun story_data => _))|].
    cbv beta. rewrite Hnone. reflexivity.
  - intros [prompts Hsome] Hnone.
    etransitivity; [apply (Hop (fun story_data => _))|].
    cbv beta. rewrite Hsome, Hnone. reflexivity.
  - intros prompts sentences Hprompts Hsentences Hmissing.
    exists (match sd_title data with Some _ => "'moral'" | None => "'title'" end).
    split; [|split; [reflexivity|]].
    + etransitivity; [apply (Hop (fun story_data => _))|].
      cbv beta. rewrite Hprompts, Hsentences. cbn [subscript].
      unfold mbind, M_bind.
      destruct (generate_images prompts (String.concat " " sentences) (S n))
        as [[images n'] evs].
      cbn [fst snd].
      destruct (sd_title data) as [title|]; cbn [subscript].
      * destruct Hmissing as [Hm|Hm]; [discriminate|]. rewrite Hm. cbn [subscript].
        unfold mret, M_ret. now rewrite app_nil_r.
      * unfold mret, M_ret. now rewrite app_nil_r.
    + destruct (sd_title data); vm_compute; reflexivity.
Qed.

(** X16: A reply between the fences, with its four members: the attempt
    returns the story made of them and of the images the illustration
    generator gives for its prompts, after the calls and the sleeps of that
    run. *)
Theorem story_operation_fenced_reply
    (prompt : string) (n : nat) (response : Response) (t body : string)
    (title moral : string) (sentences prompts : list string) :
  truthy_client = true ->
  (generate_content GEMINI_TEXT_MODEL (Text prompt) None n).1.1 = inr response ->
  text response = Some t -> t <> "" ->
  strip t = "```json" +:+ body +:+ "```" ->
  json_loads body = inr (mkStoryData (Some title) (Some moral) (Some sentences)
                           (Some prompts)) ->
  story_operation prompt n =
    let '(images, n', evs) :=
      generate_images prompts (String.concat " " sentences) (S n) in
    (OpReturn (mkStory title moral sentences prompts images), n', evs).
Proof.
  intros Hc Hcall Ht Hne Hstrip Hjson.
  destruct (truthy_client_Some env Hc) as [backend Hb].
  rewrite (generate_content_run env backend) in Hcall by exact Hb. cbn [fst] in Hcall.
  unfold story_operation, mbind, M_bind.
  rewrite (generate_content_run env backend) by exact Hb. rewrite Hcall.
  unfold truthy_text, truthy_str. rewrite Ht.
  destruct (String.eqb_spec t "") as [->|_]; [now destruct Hne|].
  cbn [negb default from_option id]. rewrite Hstrip.
  unfold startswith. rewrite prefix_append.
  change 7 with (String.length "```json"). rewrite slice_from_append.
  rewrite endswith_append.
  change (slice_to_minus 3 (body +:+ "```"))
    with (slice_to_minus (String.length "```") (body +:+ "```")).
  rewrite (slice_to_minus_append body "```"), Hjson.
  cbn [sd_imagePrompts sd_story sd_title sd_moral subscript].
  destruct (generate_images prompts (String.concat " " sentences) (S n))
    as [[images n'] evs].
  unfold mret, M_ret. rewrite app_nil_r. cbn [app].
  unfold Story_init. now destruct images.
Qed.

(** *** The images of an answer *)

Lemma generate_images_shape prompts story_context n :
  length (generate_images prompts story_context n).1.1 = length prompts /\
  Forall (fun img => img = None \/ truthy_bytes img = true)
    (generate_images prompts story_context n).1.1.
Proof.
  unfold generate_images.
  destruct (negb API_INITIALIZED || negb truthy_client) eqn:Hguard.
  - cbn [fst mret M_ret]. rewrite length_replicate. split; [reflexivity|].
    apply Forall_replicate. now left.
  - apply orb_false_elim in Hguard as [_ Hc]. apply negb_false_iff in Hc.
    destruct (images_loop_shape env prompts [] n Hc) as (new & n' & evs & -> & Hlen & Hall).
    cbn [fst app]. auto.
Qed.

Lemma create_fallback_story_aligned
    kid_name theme story_type story_length special_ingredients child_description s :
  create_fallback_story kid_name theme story_type story_length special_ingredients
    child_description = inr s ->
  aligned s.
Proof.
  destruct (create_fallback_story_spec kid_name theme story_type story_length
              special_ingredients child_description) as [_ ->].
  intros [= <-]. split; cbn [images imagePrompts].
  - now rewrite length_replicate, shape_to_length.
  - apply Forall_replicate. now left.
Qed.

Lemma story_operation_aligned prompt n s :
  (story_operation prompt n).1.1 = OpReturn s -> aligned s.
Proof.
  unfold story_operation, mbind, M_bind.
  destruct (generate_content GEMINI_TEXT_MODEL (Text prompt) None n)
    as [[[e|response] n1] evs1]; [discriminate|].
  destruct (negb (truthy_text (text response))); [discriminate|].
  match goal with |- context [json_loads ?t] => destruct (json_loads t) as [e|story_data] end;
    [discriminate|].
  destruct (sd_imagePrompts story_data) as [prompts|]; [|discriminate].
  destruct (sd_story story_data) as [sentences|]; [|discriminate].
  cbn [subscript].
  destruct (generate_images_shape prompts (String.concat " " sentences) n1) as [Hlen Hall].
  destruct (generate_images prompts (String.concat " " sentences) n1) as [[imgs n2] evs2].
  cbn [fst] in Hlen, Hall.
  destruct (sd_title story_data) as [title|]; [|discriminate].
  destruct (sd_moral story_data) as [moral|]; [|discriminate].
  cbn [subscript mret M_ret fst]. intros [= <-].
  unfold aligned, Story_init. cbn [images imagePrompts].
  destruct imgs; auto.
Qed.

Lemma story_attempts_aligned fallback prompt attempts :
  (forall s, fallback = inr s -> aligned s) ->
  forall n s, (story_attempts fallback prompt attempts n).1.1 = Returned s -> aligned s.
Proof.
  intros Hf. induction attempts as [|attempt rest IH]; intros n s; [discriminate|].
  rewrite story_attempts_step.
  pose proof (story_operation_aligned prompt n) as Hop.
  destruct (story_operation prompt n) as [[r n1] evs1]. cbn [fst] in Hop.
  specialize (IH n1 s).
  destruct (story_attempts fallback prompt rest n1) as [[x n2] evs2]. cbn [fst] in IH.
  destruct r as [s'| |e].
  - intros [= <-]. now apply Hop.
  - destruct (attempt <? max_retries - 1)%nat; [exact IH | discriminate].
  - destruct (quota_signature e).
    + destruct fallback as [e'|fs]; [discriminate|]. intros [= <-]. now apply Hf.
    + destruct (attempt <? max_retries - 1)%nat; [exact IH | discriminate].
Qed.

Lemma generate_story_aligned
    kid_name age_level theme story_type story_length special_ingredients
    child_description n s :
  (generate_story kid_name age_level theme story_type story_length special_ingredients
     child_description n).1.1 = inr (Some s) ->
  aligned s.
Proof.
  pose proof (create_fallback_story_aligned kid_name theme story_type story_length
                special_ingredients child_description) as Hf.
  unfold generate_story, mbind, M_bind. cbv zeta.
  set (fallback := create_fallback_story _ _ _ _ _ _) in *.
  destruct (negb API_INITIALIZED || negb truthy_client).
  - unfold mret at 1, M_ret at 1. rewrite quota_signature_not_initialized. discriminate.
  - pose proof (story_attempts_aligned fallback
                  (generate_story_prompt kid_name age_level theme story_type story_length
                     special_ingredients child_description)
                  (seq 0 max_retries) Hf n) as Hrun.
    destruct (story_attempts _ _ (seq 0 max_retries) n) as [[x n'] evs].
    cbn [fst] in Hrun.
    destruct x as [s'|e|].
    + intros [= <-]. now apply Hrun.
    + destruct (quota_signature e); [|discriminate].
      destruct fallback as [e'|fs]; [discriminate|]. intros [= <-]. now apply Hf.
    + discriminate.
Qed.

(** [process_story_request] answers with the serialization of an aligned
    story. *)
Lemma process_story_request_aligned
    kid_name kid_photo age_level theme story_type story_length special_ingredients n :
  exists s n' evs,
    process_story_request kid_name kid_photo age_level theme story_type story_length
      special_ingredients n = (inr (to_dict s), n', evs) /\
    aligned s.
Proof.
  destruct (create_fallback_story_total kid_name theme story_type story_length
              special_ingredients default_description) as [fs Hfs].
  pose proof (create_fallback_story_aligned _ _ _ _ _ _ _ Hfs) as Hfa.
  unfold process_story_request.
  destruct (negb API_INITIALIZED).
  - rewrite Hfs. exists fs, n, []. auto.
  - unfold mbind, M_bind.
    destruct (analyze_photo kid_photo n) as [[child_description n1] evs1].
    pose proof (generate_story_aligned kid_name age_level theme story_type story_length
                  special_ingredients child_description n1) as Hgen.
    destruct (generate_story kid_name age_level theme story_type story_length
                special_ingredients child_description n1) as [[r n2] evs2].
    cbn [fst] in Hgen. cbv zeta.
    change (if truthy_str default_description then default_description
            else default_description) with default_description.
    rewrite Hfs.
    destruct r as [e|[s|]]; unfold mret, M_ret; rewrite app_nil_r; eauto 6.
Qed.

(** X17: Whatever happens, the dictionary [process_story_request] returns has
    one entry of "images" for each entry of "imagePrompts", and every entry
    is null or the base64 text of image data that is not empty. *)
Theorem process_story_request_images
    (kid_name : string) (kid_photo : list byte)
    (age_level theme story_type story_length special_ingredients : string) (n : nat) :
  exists d n' evs,
    process_story_request kid_name kid_photo age_level theme story_type story_length
      special_ingredients n = (inr d, n', evs) /\
    length (d_images d) = length (d_imagePrompts d) /\
    Forall (fun entry =>
              match entry with
              | None => True
              | Some text64 => exists data, b64decode text64 = Some data /\ data <> []
              end) (d_images d).
Proof.
  destruct (process_story_request_aligned kid_name kid_photo age_level theme story_type
              story_length special_ingredients n) as (s & n' & evs & Hrun & Hlen & Hall).
  exists (to_dict s), n', evs. split; [exact Hrun|].
  unfold to_dict. cbn [d_images d_imagePrompts].
  split; [now rewrite length_map|].
  apply Forall_map. eapply Forall_impl; [exact Hall|].
  intros img _. cbn beta.
  destruct img as [[|b bs]|]; cbn [truthy_bytes default from_option id]; [exact I| |exact I].
  exists (b :: bs). split; [apply b64decode_b64encode | discriminate].
Qed.

(** *** The endpoint that generates a story *)


(** *** A request the backend serves at once *)

Lemma images_loop_delivers prompts :
  truthy_client = true ->
  forall (datas : list (list byte)) images n,
    length datas = length prompts ->
    (forall i p d, prompts !! i = Some p -> datas !! i = Some d ->
                   image_delivered (image_call p (n + i)) = Some d) ->
    images_loop prompts images n =
      (images ++ map Some datas, n + length prompts,
       replicate (length prompts) (Pause 1)).
Proof.
  intros Hc. induction prompts as [|p rest IH]; intros datas images n Hlen Hd.
  - destruct datas; [|discriminate]. cbn. now rewrite app_nil_r, Nat.add_0_r.
  - destruct datas as [|d datas]; [discriminate|].
    cbn [images_loop]. unfold mbind, M_bind, sleep.
    pose proof (Hd 0 p d eq_refl eq_refl) as H0. rewrite Nat.add_0_r in H0.
    rewrite (image_attempts_delivers env p images n d Hc H0).
    rewrite (IH datas (images ++ [Some d]) (S n)).
    + cbn [length map replicate app]. rewrite <- app_assoc.
      replace (S n + length rest) with (n + S (length rest)) by lia. reflexivity.
    + cbn [length] in Hlen. lia.
    + intros i p' d' Hp' Hd'.
      replace (S n + i) with (n + S i) by lia. now apply (Hd (S i)).
Qed.

Lemma story_operation_parsed
    prompt n response t title moral (sentences prompts : list string) :
  truthy_client = true ->
  (generate_content GEMINI_TEXT_MODEL (Text prompt) None n).1.1 = inr response ->
  text response = Some t -> t <> "" ->
  json_loads (unfence (strip t)) =
    inr (mkStoryData (Some title) (Some moral) (Some sentences) (Some prompts)) ->
  story_operation prompt n =
    let '(images, n', evs) :=
      generate_images prompts (String.concat " " sentences) (S n) in
    (OpReturn (mkStory title moral sentences prompts images), n', evs).
Proof.
  intros Hc Hcall Ht Hne Hjson.
  destruct (truthy_client_Some env Hc) as [backend Hb].
  rewrite (generate_content_run env backend) in Hcall by exact Hb. cbn [fst] in Hcall.
  unfold story_operation, mbind, M_bind.
  rewrite (generate_content_run env backend) by exact Hb. rewrite Hcall.
  unfold truthy_text, truthy_str. rewrite Ht.
  destruct (String.eqb_spec t "") as [->|_]; [now destruct Hne|].
  cbn [negb default from_option id].
  fold (unfence (strip t)). rewrite Hjson.
  cbn [sd_imagePrompts sd_story sd_title sd_moral subscript].
  destruct (generate_images prompts (String.concat " " sentences) (S n))
    as [[images n'] evs].
  unfold mret, M_ret. rewrite app_nil_r. cbn [app].
  unfold Story_init. now destruct images.
Qed.

(** X20: A request the backend serves at once.  The photo is readable and
    the first call describes it; the second call, whose prompt carries the
    stripped description, gives a reply that parses to the four members;
    the calls after it deliver one image for each image prompt.  Then
    [process_story_request] returns these members with the images in
    base64, in the order of the prompts, after two calls and one more for
    each prompt, and the only sleeps are the pauses of one second after
    each image. *)
Theorem process_story_request_served
    (kid_name : string) (kid_photo : list byte)
    (age_level theme story_type story_length special_ingredients : string) (n : nat)
    (image : Image) (described : Response) (description : string)
    (reply : Response) (t story_title story_moral : string) (sentences prompts : list string)
    (datas : list (list byte)) :
  API_INITIALIZED = true -> truthy_client = true ->
  Image_open kid_photo = inr image ->
  photo_call (TextAndImage vision_prompt image) n = inr described ->
  text described = Some description -> description <> "" ->
  (generate_content GEMINI_TEXT_MODEL
     (Text (generate_story_prompt kid_name age_level theme story_type story_length
              special_ingredients (strip description)))
     None (S n)).1.1 = inr reply ->
  text reply = Some t -> t <> "" ->
  json_loads (unfence (strip t)) =
    inr (mkStoryData (Some story_title) (Some story_moral) (Some sentences)
           (Some prompts)) ->
  length datas = length prompts ->
  (forall i p d, prompts !! i = Some p -> datas !! i = Some d ->
                 image_delivered (image_call p (S (S n) + i)) = Some d) ->
  process_story_request kid_name kid_photo age_level theme story_type story_length
      special_ingredients n =
    (inr (mkStoryDict story_title story_moral sentences prompts
            (map (fun d => Some (b64encode d)) datas)),
     S (S n) + length prompts,
     replicate (length prompts) (Pause 1)).
Proof.
  intros Ha Hc Himg Hphoto Hdesc Hne Hcall Ht Htne Hjson Hlen Hdel.
  assert (Hfull : Forall (fun d => truthy_bytes (Some d) = true) datas).
  { apply Forall_lookup. intros i d Hd.
    destruct (lookup_lt_is_Some_2 prompts i) as [p Hp].
    { rewrite <- Hlen. eapply lookup_lt_Some. exact Hd. }
    exact (image_delivered_truthy _ _ (Hdel i p d Hp Hd)). }
  unfold process_story_request. rewrite Ha. cbn [negb].
  unfold mbind at 1, M_bind at 1.
  unfold analyze_photo. rewrite Ha, Hc, Himg. cbn [negb orb].
  change (seq 0 max_retries) with [0; 1; 2].
  rewrite photo_attempts_step by exact Hc. rewrite Hphoto.
  unfold photo_answer, truthy_text at 1, truthy_str at 1. rewrite Hdesc.
  destruct (String.eqb_spec description "") as [->|_]; [now destruct Hne|].
  cbn [negb default from_option id].
  unfold mbind at 1, M_bind at 1.
  rewrite (generate_story_run env) by assumption. cbv zeta.
  change (seq 0 max_retries) with [0; 1; 2].
  rewrite story_attempts_step.
  rewrite (story_operation_parsed _ (S n) reply t story_title story_moral sentences prompts
             Hc Hcall Ht Htne Hjson).
  rewrite generate_images_ready by assumption.
  rewrite (images_loop_delivers prompts Hc datas [] (S (S n)) Hlen Hdel).
  cbn [app]. unfold mret, M_ret. rewrite app_nil_r. cbn [app].
  unfold to_dict. cbn [title moral story imagePrompts images].
  rewrite map_map. do 4 f_equal.
  apply map_ext_Forall. eapply Forall_impl; [exact Hfull|].
  intros d Hd. cbn beta. rewrite Hd. reflexivity.
Qed.

End PipelineCoverage.

(** *** Without credentials *)

(** X19: When the key is missing or empty, or [genai.Client] refuses it, the
    module never calls the backend and never sleeps: the photo analysis
    gives the default description, the illustration generator gives nulls,
    the narrative generator raises "Gemini API not initialized", and
    [process_story_request] answers with the fallback story. *)
Theorem no_credentials_no_calls
    (Image : Type) (Image_open : list byte -> exn + Image)
    (strip : string -> string) (json_loads : string -> exn + StoryData)
    (GEMINI_API_KEY : option string)
    (genai_Client :
       string ->
       exn + (nat -> string -> Contents Image -> option (list string) -> exn + Response)) :
  let env := module_env Image Image_open strip json_loads GEMINI_API_KEY genai_Client in
  GEMINI_API_KEY = None \/ GEMINI_API_KEY = Some "" \/
  (exists api_key e, GEMINI_API_KEY = Some api_key /\ genai_Client api_key = inl e) ->
  (forall photo_bytes n, analyze_photo env photo_bytes n = (default_description, n, [])) /\
  (forall prompts story_context n,
     generate_images env prompts story_context n =
       (replicate (length prompts) None, n, [])) /\
  (forall kid_name age_level theme story_type story_length special_ingredients
          child_description n,
     generate_story env kid_name age_level theme story_type story_length
         special_ingredients child_description n =
       (inl "Gemini API not initialized", n, [])) /\
  (forall kid_name kid_photo age_level theme story_type story_length special_ingredients n,
     exists s,
       create_fallback_story kid_name theme story_type story_length special_ingredients
         default_description = inr s /\
       process_story_request env kid_name kid_photo age_level theme story_type
           story_length special_ingredients n =
         (inr (to_dict s), n, [])).
Proof.
  intros env H.
  assert (Hinit : module_init GEMINI_API_KEY genai_Client = (false, None)).
  { unfold module_init.
    destruct H as [-> | [-> | (api_key & e & -> & He)]]; [reflexivity..|].
    unfold truthy_text, truthy_str.
    destruct (String.eqb api_key ""); cbn [negb]; [reflexivity|].
    cbn [default from_option id]. now rewrite He. }
  assert (Ha : Env.API_INITIALIZED env = false).
  { unfold env, module_env. cbn [Env.API_INITIALIZED]. now rewrite Hinit. }
  split; [|split; [|split]].
  - intros photo_bytes n. unfold analyze_photo. now rewrite Ha.
  - intros prompts story_context n. unfold generate_images. now rewrite Ha.
  - intros kid_name age_level theme story_type story_length special_ingredients
      child_description n.
    unfold generate_story. rewrite Ha. cbn [negb orb].
    unfold mbind, M_bind, mret, M_ret.
    now rewrite quota_signature_not_initialized.
  - intros kid_name kid_photo age_level theme story_type story_length special_ingredients n.
    destruct (create_fallback_story_total kid_name theme story_type story_length
                special_ingredients default_description) as [s Hs].
    exists s. split; [exact Hs|].
    unfold process_story_request. rewrite Ha. cbn [negb].
    now rewrite Hs.
Qed.

(** *** Examples *)

Lemma no_credentials_no_calls_witness :
  let env :=
    module_env unit demo_Image_open demo_strip demo_json_loads (Some "")
      (fun _ => inr (scripted [inr (text_response "{}")])) in
  analyze_photo env demo_image 0 = (default_description, 0, []) /\
  generate_images env ["a"; "b"] "ctx" 0 = ([None; None], 0, []) /\
  generate_story env "Mia" "3-5" "space" "adventure" "short" "" default_description 0 =
    (inl "Gemini API not initialized", 0, []).
Proof.
  intros env.
  destruct (no_credentials_no_calls unit demo_Image_open demo_strip demo_json_loads
              (Some "") (fun _ => inr (scripted [inr (text_response "{}")]))
              (or_intror (or_introl eq_refl))) as (H1 & H2 & H3 & _).
  split; [apply H1|]. split; [apply (H2 ["a"; "b"])|]. apply H3.
Defined.

(** No backend, and a backend that answers every call with a server
    error. *)
Lemma analyze_photo_budget_witness :
  analyze_photo (demo_env false []) demo_image 0 = (default_description, 0, []).
Proof.
  apply (proj2 (analyze_photo_budget (demo_env false []) demo_image 0)).
  left. reflexivity.
Defined.

Lemma analyze_photo_exhausted_witness :
  analyze_photo (demo_env true []) demo_image 0 =
    (default_description, 3, [Backoff Photo 2; Backoff Photo 4]).
Proof.
  apply (analyze_photo_exhausted (demo_env true []) demo_image tt 0);
    [reflexivity..|].
  intros j Hj. unfold max_retries in Hj.
  destruct j as [|[|[|j]]]; [vm_compute; reflexivity..|lia].
Defined.

(** A reply made of three spaces. *)
Lemma analyze_photo_blank_reply_witness :
  analyze_photo (blank_env [inr (text_response "   ")]) demo_image 0 = ("", 1, []).
Proof.
  apply (analyze_photo_blank_reply (blank_env [inr (text_response "   ")]) demo_image tt
           (text_response "   ") "   " 0); try reflexivity.
  discriminate.
Defined.

(** Two prompts: an image at once for the first, and one after a server
    error for the second. *)
Lemma generate_images_budget_witness :
  let env := demo_env true [inr (image_response demo_image);
                            inl "500 Internal Server Error";
                            inr (image_response demo_image)] in
  (let '(_, n', evs) := generate_images env ["a"; "b"] "ctx" 0 in
   0 + 2 <= n' <= 0 + max_retries * 2 /\
   pauses_of evs = [1; 1] /\
   2 <= seconds_slept evs <= 7 * 2) /\
  generate_images (demo_env false []) ["a"; "b"] "ctx" 0 = ([None; None], 0, []).
Proof.
  intros env. split.
  - apply (proj1 (generate_images_budget env ["a"; "b"] "ctx" 0)); reflexivity.
  - apply (proj2 (generate_images_budget (demo_env false []) ["a"; "b"] "ctx" 0)).
    left. reflexivity.
Defined.

(** Three prompts, the second of which meets three server errors. *)
Lemma generate_images_exhausted_witness :
  let env := demo_env true [inr (image_response demo_image);
                            inl "500 Internal Server Error";
                            inl "503 Service Unavailable";
                            inr (text_response "no image");
                            inr (image_response demo_image)] in
  generate_images env (["a"] ++ "b" :: ["c"]) "ctx" 0 =
    ([Some demo_image] ++ None :: [Some demo_image], 5,
     [Pause 1] ++ [Backoff Illustration 2; Backoff Illustration 4; Pause 1] ++ [Pause 1]).
Proof.
  intros env.
  refine (generate_images_exhausted env ["a"] "b" ["c"] "ctx" 0 eq_refl eq_refl _).
  intros j Hj. unfold max_retries in Hj.
  destruct j as [|[|[|j]]]; [vm_compute; reflexivity..|lia].
Defined.

(** Every call is answered with a server error. *)
Lemma generate_story_exhausted_witness :
  exists evs,
    generate_story (demo_env true []) "Mia" "3-5" "space" "adventure" "short" ""
        default_description 0 =
      (inl "Failed to generate story after 3 attempts: 503 Service Unavailable", 3, evs) /\
    backoffs_of Narrative evs = [2; 4].
Proof.
  refine (generate_story_exhausted (demo_env true []) "Mia" "3-5" "space" "adventure"
            "short" "" default_description 0 eq_refl eq_refl _).
  intros i Hi. unfold max_retries in Hi.
  destruct i as [|[|[|i]]]; [vm_compute; reflexivity..|lia].
Defined.

(** A reply without a title: the image is asked for, and dropped. *)
Lemma story_operation_missing_member_witness :
  let env := untitled_env [inr (text_response "{}"); inr (image_response demo_image)] in
  exists e,
    story_operation env "prompt" 0 = (OpRaise e, 2, [Pause 1]) /\
    e = "'title'" /\
    failed_without_quota (OpRaise e) = true.
Proof.
  intros env.
  destruct (story_operation_missing_member env "prompt" 0 untitled_story_data eq_refl)
    as (_ & _ & H).
  exact (H ["Mia and the moon"] ["Mia looked up."; "The moon smiled."] eq_refl eq_refl
           (or_introl eq_refl)).
Defined.

Lemma story_operation_fenced_reply_witness :
  story_operation
      (demo_env true [inr (text_response "```json{}```"); inr (image_response demo_image)])
      "prompt" 0 =
    (OpReturn demo_story, 2, [Pause 1]).
Proof.
  apply (story_operation_fenced_reply
           (demo_env true [inr (text_response "```json{}```");
                           inr (image_response demo_image)])
           "prompt" 0 (text_response "```json{}```") "```json{}```" "{}"
           "Mia and the Moon" "Be kind." ["Mia looked up."; "The moon smiled."]
           ["Mia and the moon"]); try reflexivity.
  discriminate.
Defined.

(** A description, a fenced reply and an image, each at the first call. *)
Lemma process_story_request_served_witness :
  process_story_request
      (demo_env true [inr (text_response "A child with a red hat.");
                      inr (text_response "```json{}```");
                      inr (image_response demo_image)])
      "Mia" demo_image "3-5" "space" "adventure" "short" "" 0 =
    (inr (mkStoryDict "Mia and the Moon" "Be kind."
            ["Mia looked up."; "The moon smiled."] ["Mia and the moon"]
            [Some (b64encode demo_image)]),
     3, [Pause 1]).
Proof.
  apply (process_story_request_served
           (demo_env true [inr (text_response "A child with a red hat.");
                           inr (text_response "```json{}```");
                           inr (image_response demo_image)])
           "Mia" demo_image "3-5" "space" "adventure" "short" "" 0 tt
           (text_response "A child with a red hat.") "A child with a red hat."
           (text_response "```json{}```") "```json{}```"
           "Mia and the Moon" "Be kind." ["Mia looked up."; "The moon smiled."]
           ["Mia and the moon"] [demo_image]);
    try reflexivity; try discriminate.
  intros [|i] p d Hp Hd; [|destruct i; discriminate Hp].
  injection Hp as <-. injection Hd as <-. vm_compute. reflexivity.
Defined.
